(** * PSA resume optimizer: the ontological matching and scoring engine

    A shallow embedding of [src/app.py]: the text normaliser
    [clean_and_extract_words], the analysis
    [run_enhanced_ontological_analysis] and the derived scores of
    [calculate_trust_visibility_scores]; with them the licence check, the
    validation and reading of uploaded files, the optimisation prompt, the
    history of analyses and the keyword lines of the report, the licence
    tiers of [src/psa_license/license.py], the file validation of
    [src/enhanced_file_processor.py] and the gap matrix of
    [src/advanced_visualizations.py].

    Modelling conventions.
    - Text is ASCII: a Python [str] is a [string], one [ascii] per character.
    - A Python [set] of strings is a [gset string]; the order in which a
      [for] loop visits a set is not fixed by the language, so it is a
      parameter ([SetOrder]).
    - A Python [dict] keeps insertion order: it is an association list whose
      keys are pairwise distinct ([dict_set] keeps the position of a key that
      is already there and appends a new one).
    - A Python [float] score is an exact rational ([Q]); [round(x, 1)] is
      rounding to the nearest tenth, ties to even.
    - The ontology is a dict of dicts that the analysis updates through a
      reference: dict objects live in a [heap] and are named by locations.
      The objects are typed (the ontology, its domains, its groups); a
      reference that does not lead to an object of the kind the code
      expects raises. *)

From Stdlib Require Import Ascii String QArith Lqa.
From stdpp Require Import gmap strings list sorting pretty.

Set Warnings "-clear-no-such-hyp".

Local Open Scope string_scope.
Local Open Scope list_scope.

(** ** Characters and strings, as Python's [str] methods see them *)

Module Str.

Definition code (c : ascii) : N := N_of_ascii c.

(** [str.isspace] on an ASCII character: TAB, LF, VT, FF, CR, the four
    separators FS, GS, RS, US, and the blank. *)
Definition is_space (c : ascii) : bool :=
  let n := code c in
  ((9 <=? n) && (n <=? 13) || (28 <=? n) && (n <=? 32))%N.

Definition is_upper (c : ascii) : bool :=
  let n := code c in ((65 <=? n) && (n <=? 90))%N.

Definition is_lower (c : ascii) : bool :=
  let n := code c in ((97 <=? n) && (n <=? 122))%N.

Definition is_digit (c : ascii) : bool :=
  let n := code c in ((48 <=? n) && (n <=? 57))%N.

(** The regular-expression class [\w]. *)
Definition is_word (c : ascii) : bool :=
  is_upper c || is_lower c || is_digit c || (code c =? 95)%N.

Definition lower_char (c : ascii) : ascii :=
  if is_upper c then ascii_of_N (code c + 32) else c.

(** [s.lower()] *)
Fixpoint lower (s : string) : string :=
  match s with
  | EmptyString => EmptyString
  | String c s' => String (lower_char c) (lower s')
  end.

(** [len(s)] *)
Definition len (s : string) : nat := String.length s.

(** [s.isdigit()]: at least one character, and all of them digits. *)
Fixpoint all_digits (s : string) : bool :=
  match s with
  | EmptyString => true
  | String c s' => is_digit c && all_digits s'
  end.

Definition isdigit (s : string) : bool :=
  match s with
  | EmptyString => false
  | _ => all_digits s
  end.

Fixpoint starts_with (p s : string) : bool :=
  match p, s with
  | EmptyString, _ => true
  | String a p', String b s' => if Ascii.eqb a b then starts_with p' s' else false
  | String _ _, EmptyString => false
  end.

(** [needle in hay] *)
Fixpoint contains (needle hay : string) : bool :=
  starts_with needle hay ||
  match hay with
  | EmptyString => false
  | String _ hay' => contains needle hay'
  end.

(** [s.split()]: the maximal runs of characters that are not white space.
    [cur] is the run being read, in reverse. *)
Fixpoint split_aux (cur : list ascii) (s : string) : list string :=
  let flush := match cur with
               | [] => []
               | _ => [string_of_list_ascii (rev cur)]
               end in
  match s with
  | EmptyString => flush
  | String c s' =>
      if is_space c then flush ++ split_aux [] s'
      else split_aux (c :: cur) s'
  end.

Definition split (s : string) : list string := split_aux [] s.

(** [s[:n]] *)
Fixpoint take (n : nat) (s : string) : string :=
  match n, s with
  | S n', String c s' => String c (take n' s')
  | _, _ => EmptyString
  end.

Definition upper_char (c : ascii) : ascii :=
  if is_lower c then ascii_of_N (code c - 32) else c.

(** [s.upper()] *)
Fixpoint upper (s : string) : string :=
  match s with
  | EmptyString => EmptyString
  | String c s' => String (upper_char c) (upper s')
  end.

(** [s.lstrip()] *)
Fixpoint lstrip (s : string) : string :=
  match s with
  | EmptyString => EmptyString
  | String c s' => if is_space c then lstrip s' else s
  end.

(** [s.rstrip()] *)
Fixpoint rstrip (s : string) : string :=
  match s with
  | EmptyString => EmptyString
  | String c s' =>
      match rstrip s' with
      | EmptyString => if is_space c then EmptyString else String c EmptyString
      | t => String c t
      end
  end.

(** [s.strip()] *)
Definition strip (s : string) : string := rstrip (lstrip s).

(** [sep.join(parts)] *)
Fixpoint join (sep : string) (parts : list string) : string :=
  match parts with
  | [] => EmptyString
  | [p] => p
  | p :: rest => p +:+ sep +:+ join sep rest
  end.


End Str.

(** ** The text normaliser *)

Definition MIN_WORD_LENGTH : nat := 2.

(** [re.sub(r'([a-z])([A-Z])', r'\1 \2', text)]: a blank goes between a
    lower-case letter and the upper-case letter that follows it. The second
    letter of a match is upper case and so never starts the next match. *)
Fixpoint split_camel_case (s : string) : string :=
  match s with
  | EmptyString => EmptyString
  | String c t =>
      match t with
      | String d _ =>
          if Str.is_lower c && Str.is_upper d
          then String c (String " " (split_camel_case t))
          else String c (split_camel_case t)
      | EmptyString => String c EmptyString
      end
  end.

(** Is the character at position [n] there, and not white space? *)
Fixpoint non_space_at (n : nat) (s : string) : bool :=
  match n, s with
  | O, String c _ => negb (Str.is_space c)
  | S n', String _ s' => non_space_at n' s'
  | _, EmptyString => false
  end.

(** [https?://\S+] matches at the head of [s]. *)
Definition url_here (s : string) : bool :=
  Str.starts_with "http://" s && non_space_at 7 s
  || Str.starts_with "https://" s && non_space_at 8 s.

(** Within the run of non-space characters at the head of [s]: is there
    an [@] with one more character of the run after it? *)
Fixpoint at_sign_inside (s : string) : bool :=
  match s with
  | String c t =>
      if Str.is_space c then false
      else match t with
           | String d _ =>
               (Ascii.eqb c "@" && negb (Str.is_space d)) || at_sign_inside t
           | EmptyString => false
           end
  | EmptyString => false
  end.

(** [\S+@\S+] matches at the head of [s]: one character of the run at
    least before the [@], one at least after it. *)
Definition email_here (s : string) : bool :=
  match s with
  | String c t => negb (Str.is_space c) && at_sign_inside t
  | EmptyString => false
  end.

(** [re.sub(r'https?://\S+|\S+@\S+', '', text)]. Either alternative, once
    it matches, runs to the end of the run of non-space characters, as its
    last [\S+] is greedy; [skipping] is set while the rest of a matched run
    is dropped. *)
Fixpoint remove_urls_emails_aux (skipping : bool) (s : string) : string :=
  match s with
  | EmptyString => EmptyString
  | String c t =>
      if Str.is_space c then String c (remove_urls_emails_aux false t)
      else if skipping then remove_urls_emails_aux true t
      else if url_here s || email_here s then remove_urls_emails_aux true t
      else String c (remove_urls_emails_aux false t)
  end.

Definition remove_urls_emails (s : string) : string :=
  remove_urls_emails_aux false s.

(** [re.sub(r'(?<![A-Z])[^\w\s\-]|(?<=[A-Z])[^\w\s\-]', ' ', text)]: the
    two look-behinds are complementary, so every character that is neither
    a word character, nor white space, nor a hyphen becomes a blank. *)
Fixpoint blank_punctuation (s : string) : string :=
  match s with
  | EmptyString => EmptyString
  | String c t =>
      String (if Str.is_word c || Str.is_space c || Ascii.eqb c "-"
              then c else " "%char)
             (blank_punctuation t)
  end.

(** The phrases [f"{tokens[i]} {tokens[i+1]}"] for [i] in
    [range(len(tokens) - 1)] whose two tokens are both long enough. *)
Fixpoint two_word_phrases (tokens : list string) : list string :=
  match tokens with
  | a :: ((b :: _) as rest) =>
      (if (MIN_WORD_LENGTH <? Str.len a)%nat && (MIN_WORD_LENGTH <? Str.len b)%nat
       then [a +:+ " " +:+ b] else [])
      ++ two_word_phrases rest
  | _ => []
  end.

Definition normalized_text (text : string) : string :=
  Str.lower (blank_punctuation (remove_urls_emails (split_camel_case text))).

(** [clean_and_extract_words(text)], with [preserve_phrases] at its default
    [True], the only way the analysis calls it. *)
Definition clean_and_extract_words (text : string) : gset string :=
  match text with
  | EmptyString => ∅
  | _ =>
      let text_lower := normalized_text text in
      let tokens := Str.split text_lower in
      let words : gset string :=
        list_to_set
          (filter (λ word, (MIN_WORD_LENGTH <? Str.len word)%nat
                           && negb (Str.isdigit word) = true) tokens) in
      words ∪ list_to_set (two_word_phrases tokens)
  end.

(** ** Dictionaries: association lists in insertion order *)

Definition dict (V : Type) : Type := list (string * V).

Section Dict.
Context {V : Type}.

(** [d.get(k)] *)
Fixpoint dict_get (d : dict V) (k : string) : option V :=
  match d with
  | [] => None
  | (k', v) :: d' => if decide (k = k') then Some v else dict_get d' k
  end.

(** [k in d] *)
Definition dict_has (d : dict V) (k : string) : bool :=
  match dict_get d k with Some _ => true | None => false end.

(** [d[k] = v]: a key that is there keeps its place, a new one goes last. *)
Fixpoint dict_set (d : dict V) (k : string) (v : V) : dict V :=
  match d with
  | [] => [(k, v)]
  | (k', v') :: d' =>
      if decide (k = k') then (k, v) :: d' else (k', v') :: dict_set d' k v
  end.

Definition dict_keys (d : dict V) : list string := map fst d.
Definition dict_values (d : dict V) : list V := map snd d.
End Dict.

(** ** Scores: Python floats as exact rationals *)

Definition Qgtb (x y : Q) : bool := negb (Qle_bool x y).

(** [min(x, y)]: [y] when [y < x], else [x]. *)
Definition py_min (x y : Q) : Q := if Qgtb x y then y else x.

(** The integer nearest to [x], ties to the even one. *)
Definition round_half_even (x : Q) : Z :=
  let n := Qnum x in
  let d := Zpos (Qden x) in
  let q := (n / d)%Z in
  match (2 * (n mod d) ?= d)%Z with
  | Lt => q
  | Gt => (q + 1)%Z
  | Eq => if Z.even q then q else (q + 1)%Z
  end.

(** [round(x, 1)] *)
Definition round1 (x : Q) : Q := Qred (round_half_even (x * 10) # 10).

(** [sum(l)] *)
Definition Qsum (l : list Q) : Q := foldl Qplus 0%Q l.

(** [len(x)] of a list or a set, as a float operand. *)
Definition Qnat (n : nat) : Q := inject_Z (Z.of_nat n).

(** ** The ontology in the store *)

(** The value of an occupation group: [signal_domains] and [example_titles],
    each read with [.get(key, [])], so that a missing key is the empty list. *)
Record group_data := {
  signal_domains : list string;
  example_titles : list string
}.

Abbreviation loc := nat.

(** The dict objects of an ontology: the top-level dict holds references to
    the two nested ones. *)
Inductive object :=
| ObjOntology (fields : dict loc)
| ObjDomains (domains : dict (list string))
| ObjGroups (groups : dict group_data).

Abbreviation heap := (list object).

(** The outcome of a piece of code that may raise. *)
Inductive res (A : Type) :=
| Ok (a : A)
| Exn (e : string).
Arguments Ok {A} a.
Arguments Exn {A} e.

(** Code that reads and updates the store; what was written before an
    exception stays written. *)
Definition M (A : Type) : Type := heap → res A * heap.

Definition ret {A} (a : A) : M A := λ h, (Ok a, h).
Definition raise {A} (e : string) : M A := λ h, (Exn e, h).
Definition bind {A B} (m : M A) (f : A → M B) : M B :=
  λ h, match m h with
       | (Ok a, h') => f a h'
       | (Exn e, h') => (Exn e, h')
       end.

Notation "'let!' x ':=' m 'in' k" := (bind m (λ x, k))
  (at level 10, x name, m at level 100, k at level 200, only parsing).
Notation "'do!' m 'in' k" := (bind m (λ _, k))
  (at level 10, m at level 100, k at level 200, only parsing).

(** [for x in l: body x] *)
Fixpoint for_each {A} (l : list A) (body : A → M unit) : M unit :=
  match l with
  | [] => ret tt
  | x :: l' => do! body x in for_each l' body
  end.

(** [ontology.copy()]: a new top-level dict with the same references in it. *)
Definition copy_ontology (l : loc) : M loc :=
  λ h, match h !! l with
       | Some (ObjOntology fields) => (Ok (length h), h ++ [ObjOntology fields])
       | _ => (Exn "TypeError", h)
       end.

(** [d[key]] on a top-level dict. *)
Definition get_item (l : loc) (key : string) : M loc :=
  λ h, match h !! l with
       | Some (ObjOntology fields) =>
           match dict_get fields key with
           | Some r => (Ok r, h)
           | None => (Exn "KeyError", h)
           end
       | _ => (Exn "TypeError", h)
       end.

(** [d.get(key)] on a top-level dict. *)
Definition get_field (l : loc) (key : string) : M (option loc) :=
  λ h, match h !! l with
       | Some (ObjOntology fields) => (Ok (dict_get fields key), h)
       | _ => (Exn "TypeError", h)
       end.

(** [d[domain] = terms] on the dict of domains at [l]. *)
Definition set_domain (l : loc) (domain : string) (terms : list string) : M unit :=
  λ h, match h !! l with
       | Some (ObjDomains d) => (Ok tt, <[l := ObjDomains (dict_set d domain terms)]> h)
       | _ => (Exn "TypeError", h)
       end.

Definition read_domains (l : loc) : M (dict (list string)) :=
  λ h, match h !! l with
       | Some (ObjDomains d) => (Ok d, h)
       | _ => (Exn "TypeError", h)
       end.

Definition read_groups (l : loc) : M (dict group_data) :=
  λ h, match h !! l with
       | Some (ObjGroups g) => (Ok g, h)
       | _ => (Exn "TypeError", h)
       end.

(** The domain-to-keywords mapping that the ontology at [l] shows: what
    [ontology["SignalDomains"]] holds. *)
Definition SignalDomains_of (h : heap) (l : loc) : option (dict (list string)) :=
  match (let! r := get_item l "SignalDomains" in read_domains r) h with
  | (Ok d, _) => Some d
  | _ => None
  end.

(** [domain in d] on the dict of domains at [l]. *)
Definition has_domain (l : loc) (domain : string) : M bool :=
  λ h, match h !! l with
       | Some (ObjDomains d) => (Ok (dict_has d domain), h)
       | _ => (Exn "TypeError", h)
       end.

(** ** The business terms that replace the ontology's own *)

Definition business_term_mappings : dict (list string) := [
  ("Leadership & Influence", [
     "project management"; "project manager"; "team leadership"; "stakeholder management";
     "scrum master"; "product owner"; "manager"; "director"; "coordination"; "planning";
     "execution"; "delivery"; "milestone"; "leadership"; "vision"; "strategy"; "oversight";
     "team lead"; "cross-functional"; "program management"; "change management"]);
  ("Systems & Structure", [
     "agile"; "scrum"; "waterfall"; "kanban"; "methodology"; "process"; "workflow";
     "SDLC"; "requirements"; "specifications"; "deliverables"; "timeline"; "budget";
     "scope"; "quality assurance"; "testing"; "deployment"; "implementation"; "integration";
     "project lifecycle"; "framework"; "standards"; "configuration"; "governance"]);
  ("AI & Technical Literacy", [
     "technology"; "software"; "IT"; "information technology"; "technical"; "systems";
     "development"; "programming"; "database"; "cloud"; "security"; "networking";
     "applications"; "digital"; "engineering"; "hardware"; "technical requirements"]);
  ("Communication Strategy", [
     "communication"; "collaboration"; "documentation"; "reporting"; "meeting";
     "stakeholder"; "team"; "coordination"; "facilitation"; "presentation";
     "client"; "customer"; "vendor"; "partner"; "interdisciplinary"]);
  ("Data & Evidence", [
     "analysis"; "reporting"; "metrics"; "performance"; "measurement"; "evaluation";
     "quality"; "testing"; "documentation"; "data"; "tracking"; "monitoring";
     "KPIs"; "dashboard"; "assessment"; "review"; "audit"; "validation"]);
  ("Outcomes & Impact", [
     "results"; "outcomes"; "success"; "performance"; "improvement"; "efficiency";
     "productivity"; "ROI"; "value"; "impact"; "goals"; "objectives"; "delivery";
     "achievements"; "optimization"; "cost reduction"; "benefit"]);
  ("Risk & Compliance", [
     "risk management"; "compliance"; "standards"; "policies"; "procedures";
     "security"; "safety"; "audit"; "quality"; "regulatory"; "governance"]);
  ("Adaptation & Flexibility", [
     "change"; "flexibility"; "adaptability"; "problem solving"; "troubleshooting";
     "innovation"; "improvement"; "scalability"; "agility"; "evolution"]);
  ("Collaboration & Relational Work", [
     "teamwork"; "collaboration"; "partnership"; "coordination"; "support";
     "communication"; "relationship"; "shared goals"; "trust"])
].

(** The body of the loop of lines 494-500: the business terms of one domain
    go into [enhanced_ontology["SignalDomains"]]; both branches of the test
    do the same assignment. *)
Definition write_business_terms (enhanced_ontology : loc)
    (entry : string * list string) : M unit :=
  let '(domain, business_terms) := entry in
  let! domains := get_item enhanced_ontology "SignalDomains" in
  let! present := has_domain domains domain in
  if present
  then (let! domains := get_item enhanced_ontology "SignalDomains" in
        set_domain domains domain business_terms)
  else (let! domains := get_item enhanced_ontology "SignalDomains" in
        set_domain domains domain business_terms).

(** Lines 490-500: the copy of the ontology and the loop over
    [business_term_mappings.items()]. *)
Definition enhance_ontology (ontology : loc) : M loc :=
  let! enhanced_ontology := copy_ontology ontology in
  do! for_each business_term_mappings (write_business_terms enhanced_ontology) in
  ret enhanced_ontology.

(** [enhanced_ontology.get("SignalDomains", {})] *)
Definition get_signal_domains (enhanced_ontology : loc) : M (dict (list string)) :=
  let! r := get_field enhanced_ontology "SignalDomains" in
  match r with
  | Some l => read_domains l
  | None => ret []
  end.

(** [enhanced_ontology.get("SOC_Groups", {})] *)
Definition get_soc_groups (enhanced_ontology : loc) : M (dict group_data) :=
  let! r := get_field enhanced_ontology "SOC_Groups" in
  match r with
  | Some l => read_groups l
  | None => ret []
  end.

(** ** The domain keyword index (lines 505-515) *)

Definition domain_keywords_of (keywords : list string) : gset string :=
  foldl (λ domain_keywords phrase,
           let phrase_lower := Str.lower phrase in
           (domain_keywords ∪ {[phrase_lower]}) ∪ list_to_set (Str.split phrase_lower))
        ∅ keywords.

Definition build_domain_keyword_map (signal_domains : dict (list string))
  : dict (gset string) :=
  foldl (λ domain_keyword_map '(domain_name, keywords),
           dict_set domain_keyword_map domain_name (domain_keywords_of keywords))
        [] signal_domains.

(** Truth value of a set: it is not empty. *)
Definition nonempty (X : gset string) : bool := negb (Nat.eqb (size X) 0).

(** [any(term in s for term in terms)] *)
Definition any_in (terms : list string) (s : string) : bool :=
  existsb (λ term, Str.contains term s) terms.

(** [sum(1 for term in terms if term in s)] *)
Definition count_in (terms : list string) (s : string) : nat :=
  length (filter (λ term, Str.contains term s = true) terms).

(** ** The occupation predictor (lines 517-619) *)

Definition it_indicators : list string := [
  "project manager"; "project management"; "it project"; "agile"; "scrum";
  "kanban"; "waterfall"; "stakeholder"; "deliverable"; "milestone"; "sdlc";
  "requirements"; "software development"; "technical"; "technology"].

Definition management_indicators : list string := [
  "team lead"; "leadership"; "manager"; "management"; "director"; "supervisor";
  "coordination"; "planning"; "strategy"; "oversight"; "cross-functional"].

(** The three score tables written out in the branches of the detection. *)
Definition it_management_scores : dict Q := [
  ("Management Occupations", 85);
  ("Computer and Mathematical Occupations", 75);
  ("AI, Data & UX Leadership Occupations", 70);
  ("Life, Physical, and Social Science Occupations", 15);
  ("Education, Training, and Library Occupations", 10)]%Q.

Definition it_scores : dict Q := [
  ("Computer and Mathematical Occupations", 80);
  ("Management Occupations", 65);
  ("AI, Data & UX Leadership Occupations", 60);
  ("Life, Physical, and Social Science Occupations", 20);
  ("Education, Training, and Library Occupations", 15)]%Q.

Definition management_scores : dict Q := [
  ("Management Occupations", 75);
  ("Computer and Mathematical Occupations", 50);
  ("Life, Physical, and Social Science Occupations", 25);
  ("Education, Training, and Library Occupations", 20)]%Q.

(** The state of the prediction: [best_soc_group], [max_soc_score] and
    [soc_scores]. *)
Record prediction := {
  best_soc_group : option string;
  max_soc_score : Q;
  soc_scores : dict Q
}.

(** [soc_override and soc_override != "Auto Detect" and soc_override in
    soc_groups] *)
Definition override_applies (soc_override : option string)
    (soc_groups : dict group_data) : bool :=
  match soc_override with
  | Some name =>
      negb (bool_decide (name = "")) && negb (bool_decide (name = "Auto Detect"))
      && dict_has soc_groups name
  | None => false
  end.

(** The inner loop of the fallback (lines 584-592): the number of signal
    domains of the group that the job description triggers, and their match
    ratios. *)
Definition triggered_domain_scores (domain_keyword_map : dict (gset string))
    (jd_words resume_words : gset string) (group : group_data) : nat * list Q :=
  foldl (λ '(triggered_domains, domain_scores) domain,
           match dict_get domain_keyword_map domain with
           | Some domain_keywords =>
               let domain_jd_keywords := domain_keywords ∩ jd_words in
               if nonempty domain_jd_keywords then
                 let matched_keywords := domain_jd_keywords ∩ resume_words in
                 let domain_score :=
                   if nonempty domain_jd_keywords
                   then (Qnat (size matched_keywords) / Qnat (size domain_jd_keywords))%Q
                   else 0%Q in
                 (S triggered_domains, domain_scores ++ [domain_score])
               else (triggered_domains, domain_scores)
           | None => (triggered_domains, domain_scores)
           end)
        (O, []) (signal_domains group).

(** Lines 594-610: the score of one group in the fallback, before rounding. *)
Definition fallback_group_score (domain_keyword_map : dict (gset string))
    (jd_words resume_words : gset string) (group_name : string)
    (group : group_data) : Q :=
  let '(triggered_domains, domain_scores) :=
    triggered_domain_scores domain_keyword_map jd_words resume_words group in
  if (1 <=? triggered_domains)%nat then
    let avg_domain_score :=
      match domain_scores with
      | [] => 0%Q
      | _ => (Qsum domain_scores / Qnat (length domain_scores))%Q
      end in
    let score := (avg_domain_score * 100)%Q in
    let name := Str.lower group_name in
    let score :=
      if any_in ["life"; "physical"; "social"; "science"] name then (score * (2 # 10))%Q
      else if any_in ["education"; "training"; "library"] name then (score * (4 # 10))%Q
      else if Str.contains "management" name then (score * (15 # 10))%Q
      else if Str.contains "computer" name then (score * (13 # 10))%Q
      else score in
    py_min score 100
  else 0%Q.

(** The fallback loop over [soc_groups.items()] (lines 580-614). *)
Definition fallback_detection (domain_keyword_map : dict (gset string))
    (jd_words resume_words : gset string) (soc_groups : dict group_data)
    (start : prediction) : prediction :=
  foldl (λ p '(group_name, group),
           let score := fallback_group_score domain_keyword_map jd_words
                          resume_words group_name group in
           let soc_scores' := dict_set (soc_scores p) group_name (round1 score) in
           if Qgtb score (max_soc_score p)
           then {| best_soc_group := Some group_name; max_soc_score := score;
                   soc_scores := soc_scores' |}
           else {| best_soc_group := best_soc_group p;
                   max_soc_score := max_soc_score p;
                   soc_scores := soc_scores' |})
        start soc_groups.

(** Lines 616-619: every group of the ontology without a score gets 0. *)
Definition fill_missing_groups (soc_groups : dict group_data) (soc_scores : dict Q)
  : dict Q :=
  foldl (λ scores group_name,
           if negb (dict_has scores group_name)
           then dict_set scores group_name 0%Q else scores)
        soc_scores (dict_keys soc_groups).

Definition predict_soc_group (jd_text : string) (jd_words resume_words : gset string)
    (domain_keyword_map : dict (gset string)) (soc_groups : dict group_data)
    (soc_override : option string) : prediction :=
  let start := {| best_soc_group := None; max_soc_score := (-1)%Q; soc_scores := [] |} in
  let p :=
    if override_applies soc_override soc_groups then
      {| best_soc_group := soc_override;
         max_soc_score := 100%Q;
         soc_scores :=
           foldl (λ scores group_name,
                    dict_set scores group_name
                      (if bool_decide (Some group_name = soc_override)
                       then 100%Q else 0%Q))
                 [] (dict_keys soc_groups) |}
    else
      let jd_lower := Str.lower jd_text in
      let it_score := count_in it_indicators jd_lower in
      let mgmt_score := count_in management_indicators jd_lower in
      if (3 <=? it_score)%nat && (2 <=? mgmt_score)%nat then
        {| best_soc_group := Some "Management Occupations";
           max_soc_score := 85%Q;
           soc_scores := it_management_scores |}
      else if (2 <=? it_score)%nat then
        {| best_soc_group := Some "Computer and Mathematical Occupations";
           max_soc_score := 80%Q;
           soc_scores := it_scores |}
      else if (2 <=? mgmt_score)%nat then
        {| best_soc_group := Some "Management Occupations";
           max_soc_score := 75%Q;
           soc_scores := management_scores |}
      else
        fallback_detection domain_keyword_map jd_words resume_words soc_groups start in
  {| best_soc_group := best_soc_group p;
     max_soc_score := max_soc_score p;
     soc_scores := fill_missing_groups soc_groups (soc_scores p) |}.

(** ** The order of iteration over a set

    A [for] loop over a Python set visits each element once, in an order
    the language leaves open: the properties below hold for every order. *)
Class SetOrder := {
  set_iter : gset string → list string;
  set_iter_perm : ∀ X, set_iter X ≡ₚ elements X
}.

(** One admissible order: that of [elements]. *)
Definition elements_order : SetOrder :=
  {| set_iter := elements; set_iter_perm := λ X, reflexivity (elements X) |}.

(** ** The domain scorer (lines 621-665) *)

Definition high_priority_terms : list string := [
  "project"; "management"; "agile"; "scrum"; "team"; "stakeholder";
  "delivery"; "planning"; "requirements"; "technical"; "strategy"].

(** [any(priority_term in gap for priority_term in high_priority_terms)] *)
Definition is_business_priority (gap : string) : bool :=
  existsb (λ priority_term, Str.contains priority_term gap) high_priority_terms.

(** The analysis result: the dict that the analysis returns. *)
Record AnalysisResult := {
  predicted_soc_group : option string;
  result_soc_scores : dict Q;
  critical_domains : list string;
  domain_scores : dict Q;
  domain_gaps : dict (list string);
  overall_score : Q;
  total_jd_keywords : nat;
  matched_keywords : nat;
  resume_text_preview : string;
  jd_text_preview : string;
  suggested_titles : list string
}.

(** What the loop over the domains carries: [domain_scores], [domain_gaps]
    and [all_jd_keywords]. *)
Record scoring := {
  sc_scores : dict Q;
  sc_gaps : dict (list string);
  sc_all_jd_keywords : gset string
}.

Section Analysis.
Context {order : SetOrder}.

(** Lines 634-637: the keywords of the domain found in the resume text. *)
Definition matched_in_resume (domain_jd_keywords : gset string)
    (resume_text_lower : string) : gset string :=
  foldl (λ matched keyword,
           if Str.contains (Str.lower keyword) resume_text_lower
           then matched ∪ {[keyword]} else matched)
        ∅ (set_iter domain_jd_keywords).

(** Lines 642-645: those that are not. *)
Definition gaps_of (domain_jd_keywords : gset string)
    (resume_text_lower : string) : gset string :=
  foldl (λ gaps keyword,
           if negb (Str.contains (Str.lower keyword) resume_text_lower)
           then gaps ∪ {[keyword]} else gaps)
        ∅ (set_iter domain_jd_keywords).

(** Lines 648-665: business terms first, then the rest, and the first 20
    of them. *)
Definition rank_gaps (gaps : gset string) : list string :=
  let '(business_priority, other_priority) :=
    foldl (λ '(business_priority, other_priority) gap,
             if is_business_priority gap
             then (business_priority ++ [gap], other_priority)
             else (business_priority, other_priority ++ [gap]))
          ([], []) (set_iter gaps) in
  let sorted_gaps := business_priority ++ other_priority in
  take 20 sorted_gaps.

(** The body of the loop over [domain_keyword_map.items()]. *)
Definition score_domain (jd_words : gset string) (resume_text_lower : string)
    (st : scoring) (entry : string * gset string) : scoring :=
  let '(domain_name, domain_keywords) := entry in
  let domain_jd_keywords := domain_keywords ∩ jd_words in
  if nonempty domain_jd_keywords then
    let all_jd_keywords := sc_all_jd_keywords st ∪ domain_jd_keywords in
    let matched_keywords := matched_in_resume domain_jd_keywords resume_text_lower in
    let score := (Qnat (size matched_keywords) / Qnat (size domain_jd_keywords) * 100)%Q in
    let domain_scores := dict_set (sc_scores st) domain_name (round1 score) in
    let gaps := gaps_of domain_jd_keywords resume_text_lower in
    let domain_gaps :=
      if nonempty gaps
      then dict_set (sc_gaps st) domain_name (rank_gaps gaps)
      else sc_gaps st in
    {| sc_scores := domain_scores; sc_gaps := domain_gaps;
       sc_all_jd_keywords := all_jd_keywords |}
  else st.

Definition score_domains (domain_keyword_map : dict (gset string))
    (jd_words : gset string) (resume_text_lower : string) : scoring :=
  foldl (score_domain jd_words resume_text_lower)
        {| sc_scores := []; sc_gaps := []; sc_all_jd_keywords := ∅ |}
        domain_keyword_map.

(** Lines 667-682 *)
Definition compute_overall_score (all_jd_keywords : gset string)
    (resume_text_lower jd_text : string) : Q :=
  if nonempty all_jd_keywords then
    let overall_matched := matched_in_resume all_jd_keywords resume_text_lower in
    let base_score := (Qnat (size overall_matched) / Qnat (size all_jd_keywords) * 100)%Q in
    let business_boost :=
      if any_in ["project manager"; "agile"; "scrum"; "stakeholder"] (Str.lower jd_text)
      then (13 # 10)%Q else 1%Q in
    py_min (base_score * business_boost) 100
  else 0%Q.

(** [text[:500] + "..." if len(text) > 500 else text] *)
Definition preview (text : string) : string :=
  if (500 <? Str.len text)%nat then Str.take 500 text +:+ "..." else text.

(** Lines 502-700: the analysis once the words are extracted and the
    ontology enhanced. *)
Definition analyse (domains : dict (list string))
    (soc_groups : dict group_data) (resume_text jd_text : string)
    (resume_words jd_words : gset string) (soc_override : option string)
  : AnalysisResult :=
  let domain_keyword_map := build_domain_keyword_map domains in
  let p := predict_soc_group jd_text jd_words resume_words domain_keyword_map
             soc_groups soc_override in
  let resume_text_lower := Str.lower resume_text in
  let st := score_domains domain_keyword_map jd_words resume_text_lower in
  let all_jd_keywords := sc_all_jd_keywords st in
  let overall := compute_overall_score all_jd_keywords resume_text_lower jd_text in
  let group :=
    match best_soc_group p with
    | Some name => dict_get soc_groups name
    | None => None
    end in
  {| predicted_soc_group := best_soc_group p;
     result_soc_scores := soc_scores p;
     critical_domains := from_option signal_domains [] group;
     domain_scores := sc_scores st;
     domain_gaps := sc_gaps st;
     overall_score := round1 overall;
     total_jd_keywords := size all_jd_keywords;
     matched_keywords :=
       length (filter (λ kw, Str.contains (Str.lower kw) resume_text_lower = true)
                      (set_iter all_jd_keywords));
     resume_text_preview := preview resume_text;
     jd_text_preview := preview jd_text;
     suggested_titles := from_option example_titles [] group |}.

(** What a call of the analysis comes to: [st.error(message)] and [None],
    or the result. *)
Inductive outcome :=
| Declined (message : string)
| Analysed (r : AnalysisResult).

(** [run_enhanced_ontological_analysis], from the two extracted texts on.
    The messages are those of the source without their warning sign. *)
Definition run_enhanced_ontological_analysis (resume_text jd_text : string)
    (ontology : loc) (soc_override : option string) : M outcome :=
  if bool_decide (resume_text = "") then
    ret (Declined "Could not extract text from resume")
  else if bool_decide (jd_text = "") then
    ret (Declined "Could not extract text from job description")
  else
    let resume_words := clean_and_extract_words resume_text in
    let jd_words := clean_and_extract_words jd_text in
    if negb (nonempty resume_words) then
      ret (Declined "No valid content found in resume")
    else if negb (nonempty jd_words) then
      ret (Declined "No valid content found in job description")
    else
      let! enhanced_ontology := enhance_ontology ontology in
      let! domains := get_signal_domains enhanced_ontology in
      let! soc_groups := get_soc_groups enhanced_ontology in
      ret (Analysed (analyse domains soc_groups resume_text jd_text
                       resume_words jd_words soc_override)).
End Analysis.

(** ** Trust and visibility (lines 56-85) *)

Definition calculate_trust_visibility_scores (results : AnalysisResult) : Q * Q :=
  let trust_scores :=
    map snd (filter (λ '(domain, score), domain ∈ critical_domains results)
                    (domain_scores results)) in
  let trust_score :=
    match trust_scores with
    | [] => 0%Q
    | _ => (Qsum trust_scores / Qnat (length trust_scores))%Q
    end in
  let visibility_score :=
    match domain_gaps results with
    | [] => match domain_scores results with [] => 0%Q | _ => 100%Q end
    | gaps =>
        let visibility_hits :=
          length (filter (λ domain,
                            Qgtb (default 0%Q (dict_get (domain_scores results) domain)) 40 = true)
                         (dict_keys gaps)) in
        (Qnat visibility_hits / Qnat (length gaps) * 100)%Q
    end in
  (round1 trust_score, round1 visibility_score).

(** ** Notions that the statements use *)

(** The keywords of domain [d] that the job description has:
    [domain_keyword_map[d].intersection(jd_words)], empty for a domain that
    the index does not have. *)
Definition domain_jd_keywords_of (domain_keyword_map : dict (gset string))
    (jd_words : gset string) (d : string) : gset string :=
  from_option (λ domain_keywords, domain_keywords ∩ jd_words) ∅
              (dict_get domain_keyword_map d).

(** The keywords of a set found in the resume text, by the substring test
    of the scorer. *)
Definition matched_set (keywords : gset string) (resume_text : string) : gset string :=
  filter (λ k, Str.contains (Str.lower k) (Str.lower resume_text) = true) keywords.

(** [domain_gaps.get(d, [])] as a set. *)
Definition gap_set (r : AnalysisResult) (d : string) : gset string :=
  list_to_set (default [] (dict_get (domain_gaps r) d)).

(** ** Sample inputs *)

Definition sample_domains : dict (list string) :=
  [("Leadership", ["team lead"; "leadership"])].

Definition sample_groups : dict group_data :=
  [("Management Occupations",
    {| signal_domains := ["Leadership"]; example_titles := ["Project Manager"] |})].

Definition sample_jd : string := "We need strong leadership and a team lead".
Definition sample_resume : string := "Proven leadership as team lead of 5 engineers".
Definition cooking_resume : string := "Cooking and baking".

(** An ontology in the store: the top-level dict at 0, its domains at 1 and
    its occupation groups at 2. *)
Definition ontology_heap (domains : dict (list string)) (groups : dict group_data)
  : heap :=
  [ObjOntology [("SignalDomains", 1); ("SOC_Groups", 2)];
   ObjDomains domains; ObjGroups groups].

(** The result for a job description that names the two keywords of the
    sample domain and a resume that has neither. *)
Abbreviation sample_result :=
  (analyse (order := elements_order) sample_domains sample_groups
    cooking_resume sample_jd
    (clean_and_extract_words cooking_resume) (clean_and_extract_words sample_jd)
    None).

(** A job description that lists the 24 business terms of the domain
    "Systems & Structure". *)
Definition systems_jd : string :=
  "agile scrum waterfall kanban methodology process workflow sdlc requirements specifications deliverables timeline budget scope quality assurance testing deployment implementation integration project lifecycle framework standards configuration governance".

(** The result for that job description, the cooking resume and an ontology
    without domains of its own: the domains are the business terms. *)
Abbreviation systems_result :=
  (analyse (order := elements_order) business_term_mappings []
    cooking_resume systems_jd
    (clean_and_extract_words cooking_resume) (clean_and_extract_words systems_jd)
    None).

(** A job description with three IT indicator phrases ("agile", "scrum",
    "project manager") and two management ones ("manager", "leadership"). *)
Definition it_management_jd : string :=
  "Agile scrum project manager with leadership".

(** A job description with two management indicator phrases and no IT one. *)
Definition management_jd : string := "Leadership and planning".

(** An ontology one of whose occupation groups bears the name that the
    caller uses for "no override". *)
Definition auto_detect_groups : dict group_data :=
  [("Auto Detect", {| signal_domains := []; example_titles := [] |})].

(** Follows the spec's words, not the code: [applyOverrides(baseOntology,
    overrideMap)], a pure transform that gives each domain of the override
    map its business terms, in place of the domain's own list or as a new
    domain. *)
Definition applyOverrides (base : dict (list string))
    (overrideMap : dict (list string)) : dict (list string) :=
  foldl (λ d '(domain, terms), dict_set d domain terms) base overrideMap.

(** A score lies in the closed interval from 0 to 100. *)
Definition in_range (x : Q) : Prop := (0 <= x)%Q ∧ (x <= 100)%Q.




(** ** Licences ([src/psa_license/license.py], and [check_license_status]
    of [src/app.py]) *)

Definition default_valid_keys : list string :=
  ["PSA-FREE-123"; "PSA-PRO-456"; "PSA-ENT-789"].

(** [verify_license_key(key)]. [secrets] is what
    [st.secrets["psa"]["valid_keys"]] gives: a list of keys, or nothing when
    the lookup raises, in which case either handler falls back on the
    default keys. *)
Definition verify_license_key (secrets : option (list string)) (key : string) : bool :=
  match secrets with
  | Some valid_keys => bool_decide (Str.strip key ∈ valid_keys)
  | None => bool_decide (Str.strip key ∈ default_valid_keys)
  end.

(** [get_user_mode(key)] *)
Definition get_user_mode (secrets : option (list string)) (key : string) : string :=
  if verify_license_key secrets key then
    let normalized_key := Str.upper (Str.strip key) in
    if Str.starts_with "PSA-ENT-" normalized_key then "enterprise"
    else if Str.starts_with "PSA-PRO-" normalized_key then "pro"
    else if Str.starts_with "PSA-FREE-" normalized_key then "freemium"
    else "freemium"
  else "invalid".

(** [check_license_status(license_key)]: the tier when it is "pro" or
    "enterprise", else [None]. *)
Definition check_license_status (secrets : option (list string))
    (license_key : string) : option string :=
  if bool_decide (license_key = "") then None
  else
    let tier := get_user_mode secrets license_key in
    if bool_decide (tier ∈ ["pro"; "enterprise"]) then Some tier else None.

(** The result for the sample job description and the resume that has both
    keywords of the sample domain. *)
Abbreviation perfect_result :=
  (analyse (order := elements_order) sample_domains sample_groups
    sample_resume sample_jd
    (clean_and_extract_words sample_resume) (clean_and_extract_words sample_jd)
    None).

(** [enhanced_ontology.get("SOC_Groups", {})], read off the fields of the
    top-level dict: the groups, none when the key is missing, and nothing
    when the reference is not to a dict of groups. *)
Definition soc_groups_of (h : heap) (fields : dict loc) : option (dict group_data) :=
  match dict_get fields "SOC_Groups" with
  | Some l =>
      match h !! l with
      | Some (ObjGroups g) => Some g
      | _ => None
      end
  | None => Some []
  end.


(** The same on the sample domains with the business terms written over
    them: what the analysis of the sample ontology returns. *)
Abbreviation enhanced_result :=
  (analyse (order := elements_order)
    (applyOverrides sample_domains business_term_mappings) sample_groups
    sample_resume sample_jd
    (clean_and_extract_words sample_resume) (clean_and_extract_words sample_jd)
    None).

(** ** The optimisation prompt ([generate_hyperprompt], lines 87-117) *)




(** ** The history of analyses ([save_analysis_to_history], lines 159-180) *)

Record HistoryEntry := {
  entry_timestamp : nat;
  entry_overall_score : Q;
  entry_trust_score : Q;
  entry_visibility_score : Q;
  entry_predicted_soc_group : option string;
  entry_domain_scores : dict Q;
  entry_total_gaps : nat;
  entry_critical_gaps : nat
}.

(** [sum(len(gaps) for gaps in domain_gaps.values())] *)
Definition total_gaps (results : AnalysisResult) : nat :=
  sum_list (map (λ '(_, gaps), length gaps) (domain_gaps results)).

(** [sum(len(gaps) for domain, gaps in domain_gaps.items() if domain in
    critical_domains)] *)
Definition critical_gaps (results : AnalysisResult) : nat :=
  sum_list (map (λ '(_, gaps), length gaps)
                (filter (λ '(domain, _), domain ∈ critical_domains results)
                        (domain_gaps results))).

(** The entry of lines 165-175; [now] is what [datetime.now()] gives. *)
Definition history_entry (now : nat) (results : AnalysisResult) : HistoryEntry :=
  {| entry_timestamp := now;
     entry_overall_score := overall_score results;
     entry_trust_score := (calculate_trust_visibility_scores results).1;
     entry_visibility_score := (calculate_trust_visibility_scores results).2;
     entry_predicted_soc_group := predicted_soc_group results;
     entry_domain_scores := domain_scores results;
     entry_total_gaps := total_gaps results;
     entry_critical_gaps := critical_gaps results |}.

(** [l[-n:]], for [n] above 0 *)
Definition last_n {A : Type} (n : nat) (l : list A) : list A :=
  drop (length l - n) l.

(** [save_analysis_to_history(results)]: [analysis_history] is the history
    of the session, absent before the first analysis; the result is the
    history the session holds afterwards. *)
Definition save_analysis_to_history (now : nat) (results : AnalysisResult)
    (analysis_history : option (list HistoryEntry)) : list HistoryEntry :=
  let history := default [] analysis_history in
  let history := history ++ [history_entry now results] in
  if (10 <? length history)%nat then last_n 10 history else history.

(** ** The missing keywords of the report ([generate_pdf_report], lines
    133-150) *)

(** [''.join(c for c in str(gap) if ord(c) < 128)] *)
Fixpoint ascii_only (s : string) : string :=
  match s with
  | EmptyString => EmptyString
  | String c s' =>
      if (Str.code c <? 128)%N then String c (ascii_only s') else ascii_only s'
  end.

(** The state of the two loops: [count], the cells written, and whether the
    loop has been left by [break]. *)
Record report_state := {
  rs_count : nat;
  rs_cells : list string;
  rs_broken : bool
}.

(** The inner loop, over [gaps[:3]]. *)
Definition report_gaps_of_domain (count : nat) (cells : list string)
    (gaps : list string) : report_state :=
  foldl (λ st gap,
           if rs_broken st then st
           else
             let clean_gap := ascii_only gap in
             if bool_decide (clean_gap = "") then st
             else
               let count := S (rs_count st) in
               {| rs_count := count;
                  rs_cells := rs_cells st ++ ["  " +:+ clean_gap];
                  rs_broken := (10 <=? count)%nat |})
        {| rs_count := count; rs_cells := cells; rs_broken := false |}
        (take 3 gaps).

(** The outer loop, over [domain_gaps.items()]: the texts of the cells that
    the report writes under "Top Missing Keywords:". *)
Definition report_gap_cells (domain_gaps : dict (list string)) : list string :=
  rs_cells
    (foldl (λ st '(domain, gaps),
              if rs_broken st then st
              else if (5 <=? rs_count st)%nat
              then {| rs_count := rs_count st; rs_cells := rs_cells st;
                      rs_broken := true |}
              else
                let inner := report_gaps_of_domain (rs_count st) (rs_cells st) gaps in
                {| rs_count := rs_count inner; rs_cells := rs_cells inner;
                   rs_broken := false |})
           {| rs_count := 0; rs_cells := []; rs_broken := false |}
           domain_gaps).

(** ** Uploaded files ([validate_file] and [extract_text_from_file], lines
    305-375; [EnhancedFileProcessor.validate_file]) *)

(** What the code reads of an uploaded file. *)
Record UploadedFile := {
  file_name : string;
  file_size : N;
  file_type : string;
  file_value : list ascii
}.

(** What the code shows with [st.error] and [st.warning]; the warning sign
    that starts the messages of [src/app.py] is left out. *)
Inductive ui_message :=
| UiError (text : string)
| UiWarning (text : string).

Definition MAX_FILE_SIZE_MB : N := 10.

(** [validate_file(file)]: the answer and the messages shown. *)
Definition validate_file (file : option UploadedFile) : bool * list ui_message :=
  match file with
  | None => (false, [])
  | Some f =>
      if (MAX_FILE_SIZE_MB * 1024 * 1024 <? file_size f)%N then
        (false, [UiError ("File '" +:+ file_name f +:+ "' is too large. Maximum size: "
                          +:+ pretty MAX_FILE_SIZE_MB +:+ "MB")])
      else if negb (bool_decide (file_type f ∈ ["application/pdf"; "text/plain"])) then
        (false, [UiError "Invalid file type. Please upload PDF or TXT files only."])
      else (true, [])
  end.

(** [EnhancedFileProcessor.validate_file(file)], with [max_file_size] as
    [__init__] sets it. *)
Definition enhanced_max_file_size : N := 50 * 1024 * 1024.

Definition enhanced_validate_file (file : option UploadedFile) : bool * list ui_message :=
  match file with
  | None => (false, [])
  | Some f =>
      if (enhanced_max_file_size <? file_size f)%N then
        (false, [UiError ("File '" +:+ file_name f +:+ "' is too large. Maximum size: "
                          +:+ pretty (enhanced_max_file_size / (1024 * 1024))%N +:+ "MB")])
      else if negb (bool_decide (file_type f ∈
                      ["application/pdf"; "text/plain";
                       "application/vnd.openxmlformats-officedocument.wordprocessingml.document"]))
      then (false, [UiError ("Invalid file type '" +:+ file_type f
                             +:+ "'. Supported: PDF, DOCX, TXT")])
      else (true, [])
  end.

(** What [page.extract_text()] does on a page: it returns a text or [None],
    or raises an exception with a text. *)
Inductive page_result :=
| PageText (text : option string)
| PageRaises (e : string).

Definition newline : string := String (ascii_of_nat 10) EmptyString.

Section Extraction.
  (** The libraries: [PdfReader] on the bytes of a file raises with a text
      or gives the pages; [decode encoding bytes] is nothing on a
      [UnicodeDecodeError]. *)
Variable PdfReader : list ascii → string + list page_result.
Variable decode : string → list ascii → option string.

(** The loop over [enumerate(reader.pages)]: the texts kept and the
    warnings shown. *)
Definition extract_pages (pages : list page_result) : list string * list ui_message :=
  (foldl (λ '(text_parts, messages, i) page,
            match page with
            | PageText (Some page_text) =>
                if bool_decide (page_text = "") then (text_parts, messages, S i)
                else (text_parts ++ [page_text], messages, S i)
            | PageText None => (text_parts, messages, S i)
            | PageRaises e =>
                (text_parts,
                 messages ++ [UiWarning ("Could not extract text from page "
                                         +:+ pretty (i + 1)%nat +:+ ": " +:+ e)],
                 S i)
            end)
         ([], [], 0%nat) pages).1.

(** The loop over the encodings: the first decoding that succeeds. *)
Fixpoint first_decoding (encodings : list string) (bytes : list ascii) : option string :=
  match encodings with
  | [] => None
  | encoding :: rest =>
      match decode encoding bytes with
      | Some text => Some text
      | None => first_decoding rest bytes
      end
  end.

(** [extract_text_from_file(file)]: the text and the messages shown. After
    the loop over the encodings the stream is at its end, so that the last
    [read()] gives no byte and the last decoding the empty text. *)
Definition extract_text_from_file (file : option UploadedFile)
  : string * list ui_message :=
  let '(valid, messages) := validate_file file in
  match file with
  | Some f =>
      if negb valid then ("", messages)
      else if bool_decide (file_type f = "application/pdf") then
        match PdfReader (file_value f) with
        | inr pages =>
            let '(text_parts, warnings) := extract_pages pages in
            (Str.join newline text_parts, warnings)
        | inl e =>
            ("", [UiError ("Failed to extract text from " +:+ file_name f
                           +:+ ": " +:+ e)])
        end
      else
        match first_decoding ["utf-8"; "latin-1"; "cp1252"] (file_value f) with
        | Some text => (text, [])
        | None =>
            ("", [UiWarning "Could not decode text file. Using fallback encoding."])
        end
  | None => ("", messages)
  end.

(** [run_enhanced_ontological_analysis(resume_file, jd_file, ontology,
    soc_override)], from the files on. *)
Definition run_enhanced_ontological_analysis_on_files {order : SetOrder}
    (resume_file jd_file : option UploadedFile) (ontology : loc)
    (soc_override : option string) : M outcome :=
  let resume_text := (extract_text_from_file resume_file).1 in
  let jd_text := (extract_text_from_file jd_file).1 in
  run_enhanced_ontological_analysis resume_text jd_text ontology soc_override.
End Extraction.

(** A file that [validate_file] turns down: none, one of more than
    10 485 760 bytes, or one whose type is neither PDF nor plain text. *)
Definition turned_down (file : option UploadedFile) : Prop :=
  match file with
  | None => True
  | Some f =>
      (10485760 < file_size f)%N
      ∨ (file_type f ≠ "application/pdf" ∧ file_type f ≠ "text/plain")
  end.

(** ** The gap matrix of the heat map ([create_keyword_heatmap], lines
    82-104 of [src/advanced_visualizations.py]) *)



(** * Properties *)

(** ** The normaliser on an example *)

Example clean_and_extract_words_ex :
  clean_and_extract_words "ProjectManager at http://x.io, a@b.c AI-led 2024 teams!"
  = list_to_set ["project"; "manager"; "project manager"; "ai-led"; "teams";
                 "2024 teams"; "ai-led 2024"].
Proof. apply (bool_decide_unpack _). by vm_compute. Qed.

(** ** Dictionaries *)

Section DictFacts.
Context {V : Type}.
Implicit Types (d : dict V) (k : string) (v : V).

Lemma dict_get_set_eq d k v : dict_get (dict_set d k v) k = Some v.
Proof.
  induction d as [|[k' v'] d IH]; simpl.
  - by rewrite decide_True.
  - destruct (decide (k = k')) as [->|Hne]; simpl.
    + by rewrite decide_True.
    + by rewrite decide_False.
Qed.

Lemma dict_get_set_ne d k k' v :
  k ≠ k' → dict_get (dict_set d k v) k' = dict_get d k'.
Proof.
  intros Hne. induction d as [|[k0 v0] d IH]; simpl.
  - by rewrite decide_False.
  - destruct (decide (k = k0)) as [->|Hk]; simpl.
    + by rewrite !decide_False.
    + destruct (decide (k' = k0)); [done | apply IH].
Qed.

Lemma dict_get_set d k k' v :
  dict_get (dict_set d k v) k' = if decide (k = k') then Some v else dict_get d k'.
Proof.
  destruct (decide (k = k')) as [->|Hne].
  - apply dict_get_set_eq.
  - by apply dict_get_set_ne.
Qed.


Lemma dict_get_is_Some d k : is_Some (dict_get d k) ↔ k ∈ dict_keys d.
Proof.
  unfold dict_keys. induction d as [|[k' v'] d IH]; simpl.
  - split; [by intros [? ?] | by intros ?%elem_of_nil].
  - destruct (decide (k = k')) as [->|Hne].
    + split; [intros _; apply list_elem_of_here | eauto].
    + rewrite IH, elem_of_cons. split; [auto | by intros [?|?]].
Qed.

Lemma dict_get_None d k : dict_get d k = None ↔ k ∉ dict_keys d.
Proof.
  rewrite <- dict_get_is_Some, eq_None_not_Some. done.
Qed.

Lemma dict_has_true d k : dict_has d k = true ↔ k ∈ dict_keys d.
Proof.
  rewrite <- dict_get_is_Some. unfold dict_has.
  destruct (dict_get d k).
  - split; eauto.
  - split; [done | by intros [? ?]].
Qed.

Lemma dict_has_false d k : dict_has d k = false ↔ dict_get d k = None.
Proof. unfold dict_has. by destruct (dict_get d k). Qed.

(** A value of the dict after [d[k] = v] is [v] or was there before. *)
Lemma dict_values_set d k v v' :
  v' ∈ dict_values (dict_set d k v) → v' = v ∨ v' ∈ dict_values d.
Proof.
  unfold dict_values. induction d as [|[k0 v0] d IH]; simpl.
  - rewrite list_elem_of_singleton. auto.
  - destruct (decide (k = k0)) as [->|Hne]; simpl; rewrite !elem_of_cons.
    + intros [->|Hin]; auto.
    + intros [->|Hin]; [auto|]. destruct (IH Hin); auto.
Qed.

Lemma dict_keys_set d k v k' :
  k' ∈ dict_keys (dict_set d k v) ↔ k' = k ∨ k' ∈ dict_keys d.
Proof.
  rewrite <- !dict_get_is_Some, dict_get_set.
  destruct (decide (k = k')) as [->|Hne]; [split; eauto|].
  split; [auto|]. intros [->|?]; [done|auto].
Qed.

Lemma dict_set_NoDup d k v :
  NoDup (dict_keys d) → NoDup (dict_keys (dict_set d k v)).
Proof.
  unfold dict_keys. induction d as [|[k0 v0] d IH]; simpl.
  - intros _. apply NoDup_singleton.
  - rewrite NoDup_cons. intros [Hnin Hnd].
    destruct (decide (k = k0)) as [->|Hne]; simpl.
    + by apply NoDup_cons.
    + apply NoDup_cons. split; [|by apply IH].
      fold (dict_keys (dict_set d k v)). rewrite dict_keys_set.
      intros [->|Hin]; [done|]. by apply Hnin.
Qed.

Lemma dict_get_elem_NoDup d k v :
  NoDup (dict_keys d) → (k, v) ∈ d → dict_get d k = Some v.
Proof.
  unfold dict_keys. induction d as [|[k0 v0] d IH]; simpl.
  - by intros _ ?%elem_of_nil.
  - rewrite NoDup_cons, elem_of_cons. intros [Hnin Hnd] [[= <- <-]|Hin].
    + by rewrite decide_True.
    + rewrite decide_False; [by apply IH|].
      intros ->. apply Hnin. apply list_elem_of_fmap. by exists (k0, v).
Qed.
End DictFacts.

(** ** Rounding *)

Lemma round_half_even_lower (a : Z) (x : Q) :
  (inject_Z a <= x)%Q → (a ≤ round_half_even x)%Z.
Proof.
  unfold round_half_even, Qle. destruct x as [n d]. simpl.
  intros Hle.
  pose proof (Z.div_mod n (Z.pos d) ltac:(lia)) as Hdm.
  pose proof (Z.mod_pos_bound n (Z.pos d) ltac:(lia)) as Hr.
  assert (a ≤ n / Z.pos d)%Z by nia.
  destruct (2 * (n mod Z.pos d) ?= Z.pos d)%Z; [destruct (Z.even _)| |]; lia.
Qed.

Lemma round_half_even_upper (b : Z) (x : Q) :
  (x <= inject_Z b)%Q → (round_half_even x ≤ b)%Z.
Proof.
  unfold round_half_even, Qle. destruct x as [n d]. simpl.
  intros Hle.
  pose proof (Z.div_mod n (Z.pos d) ltac:(lia)) as Hdm.
  pose proof (Z.mod_pos_bound n (Z.pos d) ltac:(lia)) as Hr.
  assert (n / Z.pos d ≤ b)%Z by nia.
  destruct (2 * (n mod Z.pos d) ?= Z.pos d)%Z eqn:Hc.
  - apply Z.compare_eq in Hc.
    assert (n / Z.pos d < b)%Z by nia. destruct (Z.even _); lia.
  - lia.
  - rewrite Z.compare_gt_iff in Hc. assert (n / Z.pos d < b)%Z by nia. lia.
Qed.

(** Scores stay in [0, 100] under [round(x, 1)]. *)

Lemma round1_in_range (x : Q) : in_range x → in_range (round1 x).
Proof.
  unfold in_range, round1. intros [H0 H100].
  assert (0 ≤ round_half_even (x * 10))%Z as Hlo.
  { apply round_half_even_lower. change (inject_Z 0) with 0%Q. lra. }
  assert (round_half_even (x * 10) ≤ 1000)%Z as Hhi.
  { apply round_half_even_upper.
    change (inject_Z 1000) with (1000 # 1)%Q. lra. }
  rewrite !Qred_correct. unfold Qle. simpl. lia.
Qed.

(** ** Sets and the loops over them *)

Lemma nonempty_true (X : gset string) : nonempty X = true ↔ X ≠ ∅.
Proof.
  unfold nonempty. rewrite negb_true_iff, Nat.eqb_neq.
  rewrite size_non_empty_iff. by unfold_leibniz.
Qed.

Lemma nonempty_false (X : gset string) : nonempty X = false ↔ X = ∅.
Proof.
  unfold nonempty. rewrite negb_false_iff, Nat.eqb_eq.
  rewrite size_empty_iff. by unfold_leibniz.
Qed.

Lemma nonempty_size_pos (X : gset string) : nonempty X = true → (0 < size X)%nat.
Proof. unfold nonempty. rewrite negb_true_iff, Nat.eqb_neq. lia. Qed.

(** A loop that adds the elements that pass a test computes a filter. *)
Lemma foldl_add_if (P : string → bool) (l : list string) (acc : gset string) :
  foldl (λ acc x, if P x then acc ∪ {[x]} else acc) acc l
  = acc ∪ list_to_set (filter (λ x, P x = true) l).
Proof.
  revert acc. induction l as [|x l IH]; intros acc; simpl.
  - set_solver.
  - rewrite IH. rewrite filter_cons. destruct (P x) eqn:HP.
    + rewrite decide_True by done. set_solver.
    + rewrite decide_False by done. done.
Qed.

Section LoopFacts.
Context {order : SetOrder}.

Lemma elem_of_set_iter (X : gset string) (x : string) : x ∈ set_iter X ↔ x ∈ X.
Proof. by rewrite set_iter_perm, elem_of_elements. Qed.

Lemma NoDup_set_iter (X : gset string) : NoDup (set_iter X).
Proof. rewrite set_iter_perm. apply NoDup_elements. Qed.

Lemma length_set_iter (X : gset string) : length (set_iter X) = size X.
Proof. by rewrite set_iter_perm. Qed.

(** The matched keywords are the keywords whose lower-case form occurs in
    the resume text. *)
Lemma matched_in_resume_spec (X : gset string) (text : string) :
  matched_in_resume X text
  = filter (λ k, Str.contains (Str.lower k) text = true) X.
Proof.
  unfold matched_in_resume.
  rewrite (foldl_add_if (λ k, Str.contains (Str.lower k) text)).
  apply set_eq. intros k.
  rewrite elem_of_union, elem_of_list_to_set, list_elem_of_filter,
    elem_of_set_iter, elem_of_filter.
  set_solver.
Qed.

Lemma gaps_of_spec (X : gset string) (text : string) :
  gaps_of X text = filter (λ k, Str.contains (Str.lower k) text = false) X.
Proof.
  unfold gaps_of.
  rewrite (foldl_add_if (λ k, negb (Str.contains (Str.lower k) text))).
  apply set_eq. intros k.
  rewrite elem_of_union, elem_of_list_to_set, list_elem_of_filter,
    elem_of_set_iter, elem_of_filter, negb_true_iff.
  set_solver.
Qed.

Lemma gaps_of_difference (X : gset string) (text : string) :
  gaps_of X text = X ∖ matched_in_resume X text.
Proof.
  rewrite gaps_of_spec, matched_in_resume_spec.
  apply set_eq. intros k.
  rewrite elem_of_difference, !elem_of_filter.
  destruct (Str.contains (Str.lower k) text); naive_solver.
Qed.

Lemma matched_in_resume_subseteq (X : gset string) (text : string) :
  matched_in_resume X text ⊆ X.
Proof. rewrite matched_in_resume_spec. intros k. rewrite elem_of_filter. tauto. Qed.

(** The loop that sorts the gaps into two lists. *)
Lemma partition_loop (l bp op : list string) :
  foldl (λ '(business_priority, other_priority) gap,
           if is_business_priority gap
           then (business_priority ++ [gap], other_priority)
           else (business_priority, other_priority ++ [gap]))
        (bp, op) l
  = (bp ++ filter (λ g, is_business_priority g = true) l,
     op ++ filter (λ g, ¬ is_business_priority g = true) l).
Proof.
  revert bp op. induction l as [|g l IH]; intros bp op; simpl.
  - by rewrite !app_nil_r.
  - rewrite !filter_cons. destruct (is_business_priority g) eqn:Hg.
    + rewrite IH, decide_True, decide_False by auto. by rewrite <- app_assoc.
    + rewrite IH, decide_False, decide_True by auto. by rewrite <- app_assoc.
Qed.

Lemma rank_gaps_spec (gaps : gset string) :
  rank_gaps gaps
  = take 20 (filter (λ g, is_business_priority g = true) (set_iter gaps)
             ++ filter (λ g, ¬ is_business_priority g = true) (set_iter gaps)).
Proof. unfold rank_gaps. by rewrite partition_loop. Qed.

(** Ranking loses no gap and invents none, up to the cut at 20. *)
Lemma rank_gaps_elem_of (gaps : gset string) (g : string) :
  g ∈ rank_gaps gaps → g ∈ gaps.
Proof.
  rewrite rank_gaps_spec. intros Hin.
  pose proof (elem_of_sublist _ _ _ Hin (sublist_take _ _)) as Hl.
  rewrite filter_app_complement in Hl. by apply elem_of_set_iter.
Qed.

Lemma rank_gaps_length (gaps : gset string) : (length (rank_gaps gaps) ≤ 20)%nat.
Proof. rewrite rank_gaps_spec, length_take. lia. Qed.

Lemma rank_gaps_all (gaps : gset string) :
  (size gaps ≤ 20)%nat → list_to_set (rank_gaps gaps) = gaps.
Proof.
  intros Hsize. rewrite rank_gaps_spec.
  rewrite take_ge.
  - apply set_eq. intros g.
    by rewrite elem_of_list_to_set, filter_app_complement, elem_of_set_iter.
  - by rewrite filter_app_complement, length_set_iter.
Qed.
End LoopFacts.

(** ** The domain scorer *)

Lemma build_domain_keyword_map_NoDup (domains : dict (list string)) :
  NoDup (dict_keys (build_domain_keyword_map domains)).
Proof.
  unfold build_domain_keyword_map.
  assert (∀ acc : dict (gset string), NoDup (dict_keys acc) →
    NoDup (dict_keys (foldl (λ m '(domain_name, keywords),
             dict_set m domain_name (domain_keywords_of keywords)) acc domains)))
    as Hgen.
  { induction domains as [|[k v] l IH]; intros acc Hacc; simpl; [done|].
    apply IH. by apply dict_set_NoDup. }
  apply Hgen. apply NoDup_nil_2.
Qed.

Section ScorerFacts.
Context {order : SetOrder}.
Variables (jd_words : gset string) (resume_text_lower : string).

(** The score that the loop records for a domain with keywords [kw]. *)
Let score_of (kw : gset string) : Q :=
  round1 (Qnat (size (matched_in_resume (kw ∩ jd_words) resume_text_lower))
          / Qnat (size (kw ∩ jd_words)) * 100).

Lemma score_domains_loop (m : dict (gset string)) (st : scoring) (d : string) :
  NoDup (dict_keys m) →
  let st' := foldl (score_domain jd_words resume_text_lower) st m in
  match dict_get m d with
  | Some kw =>
      if nonempty (kw ∩ jd_words) then
        dict_get (sc_scores st') d = Some (score_of kw)
        ∧ dict_get (sc_gaps st') d =
            (if nonempty (gaps_of (kw ∩ jd_words) resume_text_lower)
             then Some (rank_gaps (gaps_of (kw ∩ jd_words) resume_text_lower))
             else dict_get (sc_gaps st) d)
      else dict_get (sc_scores st') d = dict_get (sc_scores st) d
           ∧ dict_get (sc_gaps st') d = dict_get (sc_gaps st) d
  | None => dict_get (sc_scores st') d = dict_get (sc_scores st) d
            ∧ dict_get (sc_gaps st') d = dict_get (sc_gaps st) d
  end.
Proof.
  revert st. induction m as [|[k kw] m IH]; intros st Hnd; [done|].
  change (dict_keys ((k, kw) :: m)) with (k :: dict_keys m) in Hnd.
  apply NoDup_cons in Hnd as [Hk Hnd].
  cbn [foldl dict_get]. cbv zeta.
  set (st1 := score_domain jd_words resume_text_lower st (k, kw)).
  specialize (IH st1 Hnd). cbv zeta in IH.
  destruct (decide (d = k)) as [->|Hne].
  - apply dict_get_None in Hk. rewrite Hk in IH. destruct IH as [-> ->].
    subst st1. unfold score_domain.
    destruct (nonempty (kw ∩ jd_words)); simpl; [|done].
    rewrite dict_get_set_eq. split; [done|].
    destruct (nonempty (gaps_of _ _)); [by rewrite dict_get_set_eq | done].
  - assert (dict_get (sc_scores st1) d = dict_get (sc_scores st) d
            ∧ dict_get (sc_gaps st1) d = dict_get (sc_gaps st) d) as [Hs Hg].
    { subst st1. unfold score_domain.
      destruct (nonempty (kw ∩ jd_words)); simpl; [|done].
      rewrite dict_get_set_ne by done. split; [done|].
      destruct (nonempty (gaps_of _ _)); [by rewrite dict_get_set_ne | done]. }
    destruct (dict_get m d) as [kw'|]; [destruct (nonempty (kw' ∩ jd_words))|];
      destruct IH as [IH1 IH2]; (split; [rewrite IH1 | rewrite IH2]);
      rewrite ?Hs, ?Hg; done.
Qed.

(** What [domain_scores] and [domain_gaps] hold once the loop is over. *)
Lemma score_domains_scores (m : dict (gset string)) (d : string) :
  NoDup (dict_keys m) →
  dict_get (sc_scores (score_domains m jd_words resume_text_lower)) d
  = match dict_get m d with
    | Some kw => if nonempty (kw ∩ jd_words) then Some (score_of kw) else None
    | None => None
    end.
Proof.
  intros Hnd. unfold score_domains.
  pose proof (score_domains_loop m
    {| sc_scores := []; sc_gaps := []; sc_all_jd_keywords := ∅ |} d Hnd) as H.
  simpl in H. destruct (dict_get m d) as [kw|]; [|by destruct H].
  destruct (nonempty (kw ∩ jd_words)); by destruct H.
Qed.

Lemma score_domains_gaps (m : dict (gset string)) (d : string) :
  NoDup (dict_keys m) →
  dict_get (sc_gaps (score_domains m jd_words resume_text_lower)) d
  = match dict_get m d with
    | Some kw =>
        if nonempty (kw ∩ jd_words)
           && nonempty (gaps_of (kw ∩ jd_words) resume_text_lower)
        then Some (rank_gaps (gaps_of (kw ∩ jd_words) resume_text_lower))
        else None
    | None => None
    end.
Proof.
  intros Hnd. unfold score_domains.
  pose proof (score_domains_loop m
    {| sc_scores := []; sc_gaps := []; sc_all_jd_keywords := ∅ |} d Hnd) as H.
  simpl in H. destruct (dict_get m d) as [kw|]; [|by destruct H].
  destruct (nonempty (kw ∩ jd_words)); simpl; [|by destruct H].
  destruct H as [_ ->]. by destruct (nonempty (gaps_of _ _)).
Qed.
End ScorerFacts.

(** ** The returned gap lists *)

Section GapFacts.
Context {order : SetOrder}.
Variables (domains : dict (list string)) (soc_groups : dict group_data).
Variables (resume_text jd_text : string) (resume_words jd_words : gset string).
Variable (soc_override : option string).

Let r := analyse domains soc_groups resume_text jd_text resume_words jd_words
           soc_override.
Let index := build_domain_keyword_map domains.

(** A scored domain is a domain of the index whose keywords meet the job
    description. *)
Lemma scored_domain_inv (d : string) :
  is_Some (dict_get (domain_scores r) d) →
  ∃ kw, dict_get index d = Some kw ∧ nonempty (kw ∩ jd_words) = true.
Proof.
  subst r index. unfold analyse. cbn [domain_scores].
  rewrite score_domains_scores by apply build_domain_keyword_map_NoDup.
  destruct (dict_get _ d) as [kw|]; [|by intros [? ?]].
  destruct (nonempty (kw ∩ jd_words)) eqn:Hne; [eauto | by intros [? ?]].
Qed.

(** A recorded gap list is the ranking of the gaps of its domain, and
    these are not empty. *)
Lemma gap_list_inv (d : string) (gaps : list string) :
  dict_get (domain_gaps r) d = Some gaps →
  ∃ kw, dict_get index d = Some kw ∧ nonempty (kw ∩ jd_words) = true
        ∧ gaps = rank_gaps (gaps_of (kw ∩ jd_words) (Str.lower resume_text)).
Proof.
  subst r index. unfold analyse. cbn [domain_gaps].
  rewrite score_domains_gaps by apply build_domain_keyword_map_NoDup.
  destruct (dict_get _ d) as [kw|]; [|done].
  destruct (nonempty (kw ∩ jd_words)) eqn:Hne; simpl; [|done].
  destruct (nonempty (gaps_of _ _)); [|done].
  intros [= <-]. eauto.
Qed.

(** The gap set of a scored domain: what is left of its ranked gaps after
    the cut, nothing when it has no gap. *)
Lemma gap_set_scored (d : string) (kw : gset string) :
  dict_get index d = Some kw → nonempty (kw ∩ jd_words) = true →
  gap_set r d
  = list_to_set (rank_gaps (gaps_of (kw ∩ jd_words) (Str.lower resume_text)))
    ∨ (gap_set r d = ∅ ∧ gaps_of (kw ∩ jd_words) (Str.lower resume_text) = ∅).
Proof.
  intros Hkw Hne. subst r index. unfold gap_set, analyse. cbn [domain_gaps].
  rewrite score_domains_gaps by apply build_domain_keyword_map_NoDup.
  rewrite Hkw, Hne. simpl.
  destruct (nonempty (gaps_of _ _)) eqn:Hg; [by left|].
  right. split; [done|]. by apply nonempty_false.
Qed.
End GapFacts.

(** C1, as the code has it. For a domain with a score, the matched keywords
    and the returned gaps are disjoint and both lie in the domain's
    job-description keywords; the returned gaps are unmatched keywords, and
    they are all of them, so that the union is the whole keyword set, when
    at most 20 keywords are unmatched. *)
Theorem gap_match_partition {order : SetOrder}
    (domains : dict (list string)) (soc_groups : dict group_data)
    (resume_text jd_text : string) (resume_words jd_words : gset string)
    (soc_override : option string) (d : string) :
  let r := analyse domains soc_groups resume_text jd_text resume_words jd_words
             soc_override in
  let domain_jd_keywords :=
    domain_jd_keywords_of (build_domain_keyword_map domains) jd_words d in
  let matched := matched_set domain_jd_keywords resume_text in
  is_Some (dict_get (domain_scores r) d) →
  matched ## gap_set r d
  ∧ matched ∪ gap_set r d ⊆ domain_jd_keywords
  ∧ gap_set r d ⊆ domain_jd_keywords ∖ matched
  ∧ ((size (domain_jd_keywords ∖ matched) ≤ 20)%nat →
     matched ∪ gap_set r d = domain_jd_keywords).
Proof.
  intros r djk matched Hscored.
  destruct (scored_domain_inv _ _ _ _ _ _ _ _ Hscored) as (kw & Hkw & Hne).
  assert (djk = kw ∩ jd_words) as Hdjk.
  { subst djk. unfold domain_jd_keywords_of. by rewrite Hkw. }
  assert (matched = matched_in_resume djk (Str.lower resume_text)) as Hm.
  { subst matched. unfold matched_set. by rewrite matched_in_resume_spec. }
  assert (matched ⊆ djk) as Hsub.
  { rewrite Hm. apply matched_in_resume_subseteq. }
  assert (gaps_of djk (Str.lower resume_text) = djk ∖ matched) as Hgaps.
  { rewrite Hm. apply gaps_of_difference. }
  assert (gap_set r d ⊆ djk ∖ matched) as Hin.
  { destruct (gap_set_scored domains soc_groups resume_text jd_text resume_words
                jd_words soc_override d kw Hkw Hne) as [Hg|[Hg _]];
      fold r in Hg; rewrite Hg; [|set_solver].
    rewrite <- Hdjk, Hgaps. intros g Hg'%elem_of_list_to_set.
    by apply rank_gaps_elem_of in Hg'. }
  split; [set_solver|]. split; [set_solver|]. split; [done|].
  intros Hsize.
  destruct (gap_set_scored domains soc_groups resume_text jd_text resume_words
              jd_words soc_override d kw Hkw Hne) as [Hg|[Hg Hempty]];
    fold r in Hg; rewrite Hg.
  - rewrite <- Hdjk, Hgaps, rank_gaps_all by done.
    apply set_eq. intros k. rewrite elem_of_union, elem_of_difference.
    destruct (decide (k ∈ matched)); set_solver.
  - rewrite <- Hdjk, Hgaps in Hempty.
    apply set_eq. intros k. destruct (decide (k ∈ matched)); set_solver.
Qed.

(** C7: in a returned gap list, a gap with a high-priority business term in
    it comes before every gap without one. *)
Theorem business_gaps_first {order : SetOrder}
    (domains : dict (list string)) (soc_groups : dict group_data)
    (resume_text jd_text : string) (resume_words jd_words : gset string)
    (soc_override : option string) (d : string) (gaps : list string)
    (i j : nat) (g1 g2 : string) :
  dict_get (domain_gaps (analyse domains soc_groups resume_text jd_text
                           resume_words jd_words soc_override)) d = Some gaps →
  gaps !! i = Some g1 → gaps !! j = Some g2 →
  is_business_priority g1 = true → is_business_priority g2 = false →
  (i < j)%nat.
Proof.
  intros Hgaps Hi Hj Hb1 Hb2.
  apply gap_list_inv in Hgaps as (kw & _ & _ & ->).
  rewrite rank_gaps_spec in Hi, Hj.
  apply lookup_take_Some in Hi as [Hi _]. apply lookup_take_Some in Hj as [Hj _].
  set (l := set_iter _) in *.
  set (bp := filter (λ g, is_business_priority g = true) l) in *.
  destruct (decide (i < length bp)%nat) as [Hlt|Hge].
  - destruct (decide (j < length bp)%nat) as [Hjlt|Hjge]; [|lia].
    rewrite lookup_app_l in Hj by done.
    apply list_elem_of_lookup_2, list_elem_of_filter in Hj as [Hj _]. congruence.
  - rewrite lookup_app_r in Hi by lia.
    apply list_elem_of_lookup_2, list_elem_of_filter in Hi as [Hi _]. congruence.
Qed.

(** C8: a returned gap list has at most 20 entries. *)
Theorem gap_list_at_most_20 {order : SetOrder}
    (domains : dict (list string)) (soc_groups : dict group_data)
    (resume_text jd_text : string) (resume_words jd_words : gset string)
    (soc_override : option string) (d : string) (gaps : list string) :
  dict_get (domain_gaps (analyse domains soc_groups resume_text jd_text
                           resume_words jd_words soc_override)) d = Some gaps →
  (length gaps ≤ 20)%nat.
Proof.
  intros Hgaps. apply gap_list_inv in Hgaps as (kw & _ & _ & ->).
  apply rank_gaps_length.
Qed.

(** C10: a domain with a gap list has a score. *)
Theorem gapped_domain_is_scored {order : SetOrder}
    (domains : dict (list string)) (soc_groups : dict group_data)
    (resume_text jd_text : string) (resume_words jd_words : gset string)
    (soc_override : option string) (d : string) :
  let r := analyse domains soc_groups resume_text jd_text resume_words jd_words
             soc_override in
  d ∈ dict_keys (domain_gaps r) → d ∈ dict_keys (domain_scores r).
Proof.
  intros r. rewrite <- !dict_get_is_Some. intros [gaps Hgaps].
  apply gap_list_inv in Hgaps as (kw & Hkw & Hne & _).
  subst r. unfold analyse. cbn [domain_scores].
  rewrite score_domains_scores by apply build_domain_keyword_map_NoDup.
  rewrite Hkw, Hne. eauto.
Qed.

Lemma gap_match_partition_witness :
  let domain_jd_keywords :=
    domain_jd_keywords_of (build_domain_keyword_map sample_domains)
      (clean_and_extract_words sample_jd) "Leadership" in
  let matched := matched_set domain_jd_keywords cooking_resume in
  is_Some (dict_get (domain_scores sample_result) "Leadership")
  ∧ matched ## gap_set sample_result "Leadership"
  ∧ matched ∪ gap_set sample_result "Leadership" = domain_jd_keywords.
Proof.
  intros djk matched.
  assert (is_Some (dict_get (domain_scores sample_result) "Leadership")) as Hs.
  { vm_compute. eexists. reflexivity. }
  split; [exact Hs|].
  destruct (gap_match_partition (order := elements_order) sample_domains
              sample_groups cooking_resume sample_jd
              (clean_and_extract_words cooking_resume)
              (clean_and_extract_words sample_jd) None "Leadership" Hs)
    as (Hdisj & _ & _ & Hall).
  split; [exact Hdisj|]. apply Hall. vm_compute. lia.
Defined.

(** C1 as stated fails where a domain has more than 20 unmatched keywords:
    of the 28 keywords of "Systems & Structure" that the job description
    has, none is in the resume and 20 are returned. *)
Lemma gap_match_partition_counterexample :
  let r := systems_result in
  let d := "Systems & Structure" in
  let domain_jd_keywords :=
    domain_jd_keywords_of (build_domain_keyword_map business_term_mappings)
      (clean_and_extract_words systems_jd) d in
  let matched := matched_set domain_jd_keywords cooking_resume in
  (run_enhanced_ontological_analysis (order := elements_order)
     cooking_resume systems_jd 0 None (ontology_heap [] [])).1 = Ok (Analysed r)
  ∧ is_Some (dict_get (domain_scores r) d)
  ∧ size domain_jd_keywords = 28%nat
  ∧ size (gap_set r d) = 20%nat
  ∧ ¬ (matched ## gap_set r d ∧ matched ∪ gap_set r d = domain_jd_keywords).
Proof.
  intros r d djk matched.
  split; [by vm_compute|].
  split; [vm_compute; eexists; reflexivity|].
  split; [by vm_compute|].
  split; [by vm_compute|].
  assert (size (matched ∪ gap_set r d) ≠ size djk) as Hsize.
  { vm_compute. discriminate. }
  intros [_ Heq]. exact (Hsize (f_equal size Heq)).
Qed.

Lemma business_gaps_first_witness :
  dict_get (domain_gaps sample_result) "Leadership"
  = Some ["team lead"; "team"; "leadership"; "lead"]
  ∧ is_business_priority "team" = true
  ∧ is_business_priority "leadership" = false
  ∧ (1 < 2)%nat.
Proof.
  assert (dict_get (domain_gaps sample_result) "Leadership"
          = Some ["team lead"; "team"; "leadership"; "lead"]) as Hgaps.
  { by vm_compute. }
  split; [exact Hgaps|]. split; [reflexivity|]. split; [reflexivity|].
  exact (business_gaps_first (order := elements_order) sample_domains sample_groups
           cooking_resume sample_jd (clean_and_extract_words cooking_resume)
           (clean_and_extract_words sample_jd) None "Leadership"
           ["team lead"; "team"; "leadership"; "lead"] 1 2 "team" "leadership"
           Hgaps eq_refl eq_refl eq_refl eq_refl).
Defined.

Lemma gap_list_at_most_20_witness :
  dict_get (domain_gaps sample_result) "Leadership"
  = Some ["team lead"; "team"; "leadership"; "lead"]
  ∧ (length ["team lead"; "team"; "leadership"; "lead"] ≤ 20)%nat.
Proof.
  assert (dict_get (domain_gaps sample_result) "Leadership"
          = Some ["team lead"; "team"; "leadership"; "lead"]) as Hgaps.
  { by vm_compute. }
  split; [exact Hgaps|].
  exact (gap_list_at_most_20 (order := elements_order) sample_domains sample_groups
           cooking_resume sample_jd (clean_and_extract_words cooking_resume)
           (clean_and_extract_words sample_jd) None "Leadership" _ Hgaps).
Defined.

Lemma gapped_domain_is_scored_witness :
  "Leadership" ∈ dict_keys (domain_gaps sample_result)
  ∧ "Leadership" ∈ dict_keys (domain_scores sample_result).
Proof.
  assert ("Leadership" ∈ dict_keys (domain_gaps sample_result)) as Hin.
  { vm_compute. apply list_elem_of_here. }
  split; [exact Hin|].
  exact (gapped_domain_is_scored (order := elements_order) sample_domains
           sample_groups cooking_resume sample_jd
           (clean_and_extract_words cooking_resume)
           (clean_and_extract_words sample_jd) None "Leadership" Hin).
Defined.

(** ** The occupation predictor *)

Lemma fill_missing_groups_get (soc_groups : dict group_data) (scores : dict Q)
    (g : string) :
  dict_get (fill_missing_groups soc_groups scores) g
  = match dict_get scores g with
    | Some s => Some s
    | None => if decide (g ∈ dict_keys soc_groups) then Some 0%Q else None
    end.
Proof.
  unfold fill_missing_groups. revert scores.
  induction (dict_keys soc_groups) as [|k ks IH]; intros scores; cbn [foldl].
  - destruct (dict_get scores g); [done|].
    by rewrite decide_False by apply not_elem_of_nil.
  - rewrite IH. clear IH.
    assert (∀ o : option Q,
      (if decide (g ∈ k :: ks) then o else None)
      = if decide (g = k) then o else if decide (g ∈ ks) then o else None) as Hdec.
    { intros o. destruct (decide (g = k)) as [->|Hne].
      - by rewrite decide_True by apply list_elem_of_here.
      - destruct (decide (g ∈ ks)) as [Hin|Hnin].
        + by rewrite decide_True by (by apply list_elem_of_further).
        + rewrite decide_False; [done|]. intros [?|?]%elem_of_cons; contradiction. }
    rewrite Hdec. clear Hdec.
    destruct (dict_has scores k) eqn:Hk; cbn [negb].
    + destruct (dict_get scores g) eqn:Hg; [done|].
      rewrite (decide_False (P := g = k)); [done|].
      intros ->. unfold dict_has in Hk. by rewrite Hg in Hk.
    + rewrite dict_get_set. apply dict_has_false in Hk.
      destruct (decide (k = g)) as [->|Hne].
      * by rewrite Hk, decide_True.
      * by rewrite (decide_False (P := g = k)) by congruence.
Qed.

Lemma fill_missing_groups_nil (scores : dict Q) : fill_missing_groups [] scores = scores.
Proof. done. Qed.

(** The loop of the override branch gives every group its score. *)
Lemma override_loop_get (f : string → Q) (keys : list string) (acc : dict Q)
    (g : string) :
  dict_get (foldl (λ scores group_name, dict_set scores group_name (f group_name))
                  acc keys) g
  = if decide (g ∈ keys) then Some (f g) else dict_get acc g.
Proof.
  revert acc. induction keys as [|k ks IH]; intros acc; cbn [foldl].
  - by rewrite decide_False by apply not_elem_of_nil.
  - rewrite IH. destruct (decide (g ∈ ks)) as [Hin|Hnin].
    + by rewrite decide_True by (by apply list_elem_of_further).
    + rewrite dict_get_set. destruct (decide (k = g)) as [->|Hne].
      * by rewrite decide_True by apply list_elem_of_here.
      * rewrite decide_False; [done|]. intros [?|?]%elem_of_cons; [congruence|contradiction].
Qed.

Lemma override_applies_nil (soc_override : option string) :
  override_applies soc_override [] = false.
Proof. destruct soc_override; [apply andb_false_r | done]. Qed.

(** An override that is missing or names no group of the ontology does not
    apply. *)
Lemma no_valid_override (soc_override : option string) (soc_groups : dict group_data) :
  (∀ name, soc_override = Some name → name ∉ dict_keys soc_groups) →
  override_applies soc_override soc_groups = false.
Proof.
  intros Hno. destruct soc_override as [name|]; [|done]. simpl.
  destruct (dict_has soc_groups name) eqn:Hhas; [|apply andb_false_r].
  apply dict_has_true in Hhas. by destruct (Hno name eq_refl).
Qed.

(** The analysis returns what the predictor says. *)
Lemma analyse_prediction {order : SetOrder} (domains : dict (list string))
    (soc_groups : dict group_data) (resume_text jd_text : string)
    (resume_words jd_words : gset string) (soc_override : option string) :
  let r := analyse domains soc_groups resume_text jd_text resume_words jd_words
             soc_override in
  let p := predict_soc_group jd_text jd_words resume_words
             (build_domain_keyword_map domains) soc_groups soc_override in
  predicted_soc_group r = best_soc_group p ∧ result_soc_scores r = soc_scores p.
Proof. done. Qed.

(** C3, as the code has it. With no occupation group in the ontology, the
    predictor returns no group and an empty score map when the job
    description has fewer than 2 IT indicator phrases and fewer than 2
    management indicator phrases. *)
Theorem no_groups_no_prediction (jd_text : string) (jd_words resume_words : gset string)
    (domain_keyword_map : dict (gset string)) (soc_override : option string) :
  let p := predict_soc_group jd_text jd_words resume_words domain_keyword_map []
             soc_override in
  (count_in it_indicators (Str.lower jd_text) < 2)%nat →
  (count_in management_indicators (Str.lower jd_text) < 2)%nat →
  best_soc_group p = None ∧ soc_scores p = [].
Proof.
  intros p Hit Hmgmt. subst p. unfold predict_soc_group.
  rewrite override_applies_nil.
  destruct (3 <=? _)%nat eqn:H3; [apply Nat.leb_le in H3; lia|].
  destruct (2 <=? count_in it_indicators _)%nat eqn:H2; [apply Nat.leb_le in H2; lia|].
  destruct (2 <=? count_in management_indicators _)%nat eqn:H1;
    [apply Nat.leb_le in H1; lia|].
  done.
Qed.

Lemma no_groups_no_prediction_witness :
  (count_in it_indicators (Str.lower "Hello world") < 2)%nat
  ∧ (count_in management_indicators (Str.lower "Hello world") < 2)%nat
  ∧ best_soc_group
      (predict_soc_group "Hello world" (clean_and_extract_words "Hello world")
         (clean_and_extract_words sample_resume)
         (build_domain_keyword_map sample_domains) [] None) = None.
Proof.
  assert (count_in it_indicators (Str.lower "Hello world") < 2)%nat as Hit
    by (vm_compute; lia).
  assert (count_in management_indicators (Str.lower "Hello world") < 2)%nat as Hm
    by (vm_compute; lia).
  split; [exact Hit|]. split; [exact Hm|].
  exact (proj1 (no_groups_no_prediction "Hello world"
                  (clean_and_extract_words "Hello world")
                  (clean_and_extract_words sample_resume)
                  (build_domain_keyword_map sample_domains) None Hit Hm)).
Defined.

(** C3 as stated fails: with no occupation group in the ontology and a job
    description that has three IT and two management indicator phrases, the
    analysis predicts "Management Occupations" and returns the five scores
    of the fixed table. *)
Lemma no_groups_counterexample :
  ∃ r, (run_enhanced_ontological_analysis (order := elements_order)
          cooking_resume it_management_jd 0 None (ontology_heap [] [])).1
       = Ok (Analysed r)
       ∧ ¬ (predicted_soc_group r = None ∧ result_soc_scores r = [])
       ∧ predicted_soc_group r = Some "Management Occupations"
       ∧ result_soc_scores r = it_management_scores.
Proof.
  eexists. split; [by vm_compute|].
  split; [|by split]. by intros [? _].
Qed.

(** C5: without an override that applies (none given, or a name that is no
    group of the ontology), a job description with at least 3 IT and at
    least 2 management indicator phrases is predicted "Management
    Occupations" with score 85; the scores are the fixed table, with 0 for
    every other group of the ontology. The word sets and the keyword index,
    which only the fallback scoring reads, have no part in the result. *)
Theorem it_management_rule (jd_text : string) (jd_words resume_words : gset string)
    (domain_keyword_map : dict (gset string)) (soc_groups : dict group_data)
    (soc_override : option string) :
  let p := predict_soc_group jd_text jd_words resume_words domain_keyword_map
             soc_groups soc_override in
  override_applies soc_override soc_groups = false →
  (3 ≤ count_in it_indicators (Str.lower jd_text))%nat →
  (2 ≤ count_in management_indicators (Str.lower jd_text))%nat →
  best_soc_group p = Some "Management Occupations"
  ∧ max_soc_score p = 85%Q
  ∧ dict_get (soc_scores p) "Management Occupations" = Some 85%Q
  ∧ soc_scores p = fill_missing_groups soc_groups it_management_scores
  ∧ (∀ g s, dict_get it_management_scores g = Some s →
            dict_get (soc_scores p) g = Some s)
  ∧ (∀ g, dict_get it_management_scores g = None → g ∈ dict_keys soc_groups →
          dict_get (soc_scores p) g = Some 0%Q)
  ∧ (∀ g, dict_get it_management_scores g = None → g ∉ dict_keys soc_groups →
          dict_get (soc_scores p) g = None).
Proof.
  intros p Hov Hit Hmgmt. subst p. unfold predict_soc_group. rewrite Hov.
  apply Nat.leb_le in Hit, Hmgmt. rewrite Hit, Hmgmt. cbn [andb].
  cbn [best_soc_group max_soc_score soc_scores].
  split; [done|]. split; [done|].
  split; [by rewrite fill_missing_groups_get|]. split; [done|].
  split; [|split].
  - intros g s Hg. by rewrite fill_missing_groups_get, Hg.
  - intros g Hg Hin. by rewrite fill_missing_groups_get, Hg, decide_True.
  - intros g Hg Hin. by rewrite fill_missing_groups_get, Hg, decide_False.
Qed.

Lemma it_management_rule_witness :
  override_applies None sample_groups = false
  ∧ (3 ≤ count_in it_indicators (Str.lower it_management_jd))%nat
  ∧ (2 ≤ count_in management_indicators (Str.lower it_management_jd))%nat
  ∧ best_soc_group
      (predict_soc_group it_management_jd (clean_and_extract_words it_management_jd)
         (clean_and_extract_words cooking_resume)
         (build_domain_keyword_map sample_domains) sample_groups None)
    = Some "Management Occupations".
Proof.
  assert (3 ≤ count_in it_indicators (Str.lower it_management_jd))%nat as Hit
    by (vm_compute; lia).
  assert (2 ≤ count_in management_indicators (Str.lower it_management_jd))%nat as Hm
    by (vm_compute; lia).
  split; [reflexivity|]. split; [exact Hit|]. split; [exact Hm|].
  exact (proj1 (it_management_rule it_management_jd
                  (clean_and_extract_words it_management_jd)
                  (clean_and_extract_words cooking_resume)
                  (build_domain_keyword_map sample_domains) sample_groups None
                  eq_refl Hit Hm)).
Defined.

(** C6, as the code has it. An override name that is not empty, is not
    "Auto Detect" and is a key of the occupation groups is the predicted
    group, with score 100, and every other group has score 0, whatever the
    job description says. *)
Theorem override_wins (jd_text : string) (jd_words resume_words : gset string)
    (domain_keyword_map : dict (gset string)) (soc_groups : dict group_data)
    (name : string) :
  let p := predict_soc_group jd_text jd_words resume_words domain_keyword_map
             soc_groups (Some name) in
  name ≠ "" → name ≠ "Auto Detect" → name ∈ dict_keys soc_groups →
  best_soc_group p = Some name
  ∧ max_soc_score p = 100%Q
  ∧ dict_get (soc_scores p) name = Some 100%Q
  ∧ (∀ g, g ∈ dict_keys soc_groups → g ≠ name →
          dict_get (soc_scores p) g = Some 0%Q)
  ∧ (∀ g, g ∉ dict_keys soc_groups → dict_get (soc_scores p) g = None).
Proof.
  intros p Hne Hauto Hin. subst p. unfold predict_soc_group.
  assert (override_applies (Some name) soc_groups = true) as ->.
  { unfold override_applies.
    rewrite !bool_decide_eq_false_2 by done.
    by apply dict_has_true in Hin as ->. }
  cbn [best_soc_group max_soc_score soc_scores].
  split; [done|]. split; [done|]. split; [|split].
  - rewrite fill_missing_groups_get, override_loop_get, decide_True by done.
    by rewrite bool_decide_eq_true_2.
  - intros g Hg Hgn.
    rewrite fill_missing_groups_get, override_loop_get, decide_True by done.
    rewrite bool_decide_eq_false_2; [done|congruence].
  - intros g Hg.
    rewrite fill_missing_groups_get, override_loop_get, !decide_False by done.
    done.
Qed.

Lemma override_wins_witness :
  "Management Occupations" ≠ "" ∧ "Management Occupations" ≠ "Auto Detect"
  ∧ "Management Occupations" ∈ dict_keys sample_groups
  ∧ best_soc_group
      (predict_soc_group sample_jd (clean_and_extract_words sample_jd)
         (clean_and_extract_words sample_resume)
         (build_domain_keyword_map sample_domains) sample_groups
         (Some "Management Occupations"))
    = Some "Management Occupations".
Proof.
  assert ("Management Occupations" ≠ "") as H1 by discriminate.
  assert ("Management Occupations" ≠ "Auto Detect") as H2 by discriminate.
  assert ("Management Occupations" ∈ dict_keys sample_groups) as H3
    by apply list_elem_of_here.
  split; [exact H1|]. split; [exact H2|]. split; [exact H3|].
  exact (proj1 (override_wins sample_jd (clean_and_extract_words sample_jd)
                  (clean_and_extract_words sample_resume)
                  (build_domain_keyword_map sample_domains) sample_groups
                  "Management Occupations" H1 H2 H3)).
Defined.

(** C6 as stated fails for the name "Auto Detect": where the ontology has a
    group of that name and the caller passes it, the override is not taken
    and the job description decides. *)
Lemma override_counterexample :
  "Auto Detect" ∈ dict_keys auto_detect_groups
  ∧ ∃ r, (run_enhanced_ontological_analysis (order := elements_order)
            cooking_resume management_jd 0 (Some "Auto Detect")
            (ontology_heap [] auto_detect_groups)).1
         = Ok (Analysed r)
         ∧ predicted_soc_group r = Some "Management Occupations"
         ∧ dict_get (result_soc_scores r) "Auto Detect" = Some 0%Q
         ∧ ¬ (predicted_soc_group r = Some "Auto Detect"
              ∧ dict_get (result_soc_scores r) "Auto Detect" = Some 100%Q).
Proof.
  split; [apply list_elem_of_here|].
  eexists. split; [by vm_compute|].
  split; [done|]. split; [done|]. by intros [? _].
Qed.

(** ** Declined inputs *)

(** C9: an empty job-description text, or one whose normalisation has no
    word and no phrase, is declined with an error message; no result is
    returned, and the store is as it was. *)
Theorem empty_jd_declined {order : SetOrder} (resume_text jd_text : string)
    (ontology : loc) (soc_override : option string) (h : heap) :
  jd_text = "" ∨ clean_and_extract_words jd_text = ∅ →
  ∃ message,
    run_enhanced_ontological_analysis resume_text jd_text ontology soc_override h
    = (Ok (Declined message), h).
Proof.
  intros Hjd. unfold run_enhanced_ontological_analysis.
  destruct (bool_decide (resume_text = "")); [by eexists|].
  destruct (bool_decide (jd_text = "")) eqn:Hempty; [by eexists|].
  destruct (nonempty (clean_and_extract_words resume_text)); [|by eexists].
  cbn [negb].
  destruct Hjd as [->|Hwords]; [done|].
  apply nonempty_false in Hwords. rewrite Hwords. by eexists.
Qed.

Lemma empty_jd_declined_witness :
  ("a b" = "" ∨ clean_and_extract_words "a b" = ∅)
  ∧ ∃ message,
      run_enhanced_ontological_analysis (order := elements_order)
        sample_resume "a b" 0 None (ontology_heap sample_domains sample_groups)
      = (Ok (Declined message), ontology_heap sample_domains sample_groups).
Proof.
  assert ("a b" = "" ∨ clean_and_extract_words "a b" = ∅) as Hjd.
  { right. by vm_compute. }
  split; [exact Hjd|].
  exact (empty_jd_declined (order := elements_order) sample_resume "a b" 0 None
           (ontology_heap sample_domains sample_groups) Hjd).
Defined.

(** ** The ontology after an analysis *)

(** C2 fails on the code. The copy of the ontology is shallow: the copy and
    the original hold the same dict of domains, and the business terms are
    written into it. Here the ontology has the one domain "Leadership"
    before the analysis and ten domains after it. *)
Theorem analysis_changes_ontology :
  let h := ontology_heap sample_domains sample_groups in
  let h' := (run_enhanced_ontological_analysis (order := elements_order)
               sample_resume sample_jd 0 None h).2 in
  SignalDomains_of h 0 = Some sample_domains
  ∧ SignalDomains_of h' 0
    = Some (applyOverrides sample_domains business_term_mappings)
  ∧ SignalDomains_of h' 0 ≠ SignalDomains_of h 0.
Proof.
  intros h h'.
  split; [reflexivity|]. split; [by vm_compute|].
  assert (length <$> SignalDomains_of h' 0 ≠ length <$> SignalDomains_of h 0) as Hlen.
  { vm_compute. discriminate. }
  intros Heq. exact (Hlen (f_equal (fmap length) Heq)).
Qed.

(** ** Score bounds *)

Lemma Qnat_nonneg (n : nat) : (0 <= Qnat n)%Q.
Proof. unfold Qnat, Qle. simpl. lia. Qed.

Lemma Qnat_pos (n : nat) : (0 < n)%nat → (0 < Qnat n)%Q.
Proof. unfold Qnat, Qlt. simpl. lia. Qed.

Lemma Qnat_le (m n : nat) : (m ≤ n)%nat → (Qnat m <= Qnat n)%Q.
Proof. unfold Qnat, Qle. simpl. lia. Qed.

Lemma Qnat_S (n : nat) : (Qnat (S n) == Qnat n + 1)%Q.
Proof. unfold Qnat, Qeq, Qplus. simpl. lia. Qed.

(** A part over the whole, as a fraction. *)
Lemma ratio_bounds (m n : nat) :
  (m ≤ n)%nat → (0 < n)%nat → (0 <= Qnat m / Qnat n)%Q ∧ (Qnat m / Qnat n <= 1)%Q.
Proof.
  intros Hle Hpos. pose proof (Qnat_nonneg m). pose proof (Qnat_pos n Hpos).
  pose proof (Qnat_le m n Hle). split.
  - apply Qle_shift_div_l; [done|]. lra.
  - apply Qle_shift_div_r; [done|]. lra.
Qed.

(** A part over the whole, as a percentage. *)
Lemma ratio_in_range (m n : nat) :
  (m ≤ n)%nat → (0 < n)%nat → in_range (Qnat m / Qnat n * 100).
Proof.
  intros Hle Hpos. destruct (ratio_bounds m n Hle Hpos). unfold in_range. lra.
Qed.


Lemma Qgtb_false (x y : Q) : Qgtb x y = false ↔ (x <= y)%Q.
Proof. unfold Qgtb. by rewrite negb_false_iff, Qle_bool_iff. Qed.

Lemma py_min_100_in_range (x : Q) : (0 <= x)%Q → in_range (py_min x 100).
Proof.
  intros Hx. unfold py_min, in_range. destruct (Qgtb x 100) eqn:Hgt.
  - lra.
  - apply Qgtb_false in Hgt. lra.
Qed.

(** The sum of a list of numbers between 0 and [c]. *)
Lemma Qsum_bounds (c : Q) (l : list Q) :
  Forall (λ x, (0 <= x)%Q ∧ (x <= c)%Q) l →
  (0 <= Qsum l)%Q ∧ (Qsum l <= c * Qnat (length l))%Q.
Proof.
  intros Hl. unfold Qsum.
  assert (∀ a : Q, (a <= foldl Qplus a l)%Q
                   ∧ (foldl Qplus a l <= a + c * Qnat (length l))%Q) as Hgen.
  { induction Hl as [|x l [Hx0 Hxc] _ IH]; intros a; simpl.
    - change (Qnat 0) with 0%Q. lra.
    - destruct (IH (a + x)%Q) as [Hlo Hhi].
      pose proof (Qnat_S (length l)) as HS.
      change (Qnat (S (length l))) with (Qnat (S (length l))) in *.
      split; [lra|]. rewrite HS. lra. }
  destruct (Hgen 0%Q) as [Hlo Hhi]. split; [done|]. lra.
Qed.

(** The mean of a non-empty list of numbers between 0 and [c]. *)
Lemma mean_bounds (c : Q) (l : list Q) :
  Forall (λ x, (0 <= x)%Q ∧ (x <= c)%Q) l → l ≠ [] →
  (0 <= Qsum l / Qnat (length l))%Q ∧ (Qsum l / Qnat (length l) <= c)%Q.
Proof.
  intros Hl Hne. destruct (Qsum_bounds c l Hl) as [Hlo Hhi].
  assert (0 < Qnat (length l))%Q as Hpos.
  { apply Qnat_pos. destruct l; [done | simpl; lia]. }
  split.
  - apply Qle_shift_div_l; [done|]. lra.
  - apply Qle_shift_div_r; [done|]. lra.
Qed.

Lemma Forall_dict_set {V : Type} (P : V → Prop) (d : dict V) (k : string) (v : V) :
  P v → Forall P (dict_values d) → Forall P (dict_values (dict_set d k v)).
Proof.
  intros Hv Hd. apply Forall_forall. intros v' Hin.
  apply dict_values_set in Hin as [->|Hin]; [done|].
  by apply (proj1 (Forall_forall _ _) Hd).
Qed.

Lemma in_range_0 : in_range 0.
Proof. unfold in_range. lra. Qed.

Lemma in_range_100 : in_range 100.
Proof. unfold in_range. lra. Qed.

(** *** The scores of the domains *)

Lemma score_domains_in_range {order : SetOrder} (m : dict (gset string))
    (jd_words : gset string) (resume_text_lower : string) :
  Forall in_range (dict_values (sc_scores (score_domains m jd_words resume_text_lower))).
Proof.
  unfold score_domains.
  assert (∀ st, Forall in_range (dict_values (sc_scores st)) →
    Forall in_range
      (dict_values (sc_scores (foldl (score_domain jd_words resume_text_lower) st m))))
    as Hgen.
  { induction m as [|[k kw] m IH]; intros st Hst; [done|].
    cbn [foldl]. apply IH. unfold score_domain.
    destruct (nonempty (kw ∩ jd_words)) eqn:Hne; [|done].
    cbn [sc_scores]. apply Forall_dict_set; [|done].
    apply round1_in_range, ratio_in_range.
    - apply subseteq_size, matched_in_resume_subseteq.
    - by apply nonempty_size_pos. }
  apply Hgen. constructor.
Qed.

(** *** The overall score *)

Lemma compute_overall_score_in_range {order : SetOrder} (all_jd_keywords : gset string)
    (resume_text_lower jd_text : string) :
  in_range (compute_overall_score all_jd_keywords resume_text_lower jd_text).
Proof.
  unfold compute_overall_score.
  destruct (nonempty all_jd_keywords) eqn:Hne; [|apply in_range_0].
  apply py_min_100_in_range.
  assert (in_range (Qnat (size (matched_in_resume all_jd_keywords resume_text_lower))
                    / Qnat (size all_jd_keywords) * 100)) as [Hlo Hhi].
  { apply ratio_in_range.
    - apply subseteq_size, matched_in_resume_subseteq.
    - by apply nonempty_size_pos. }
  destruct (any_in _ _); nra.
Qed.

(** *** The scores of the occupation groups *)

Lemma triggered_domain_scores_bounds (domain_keyword_map : dict (gset string))
    (jd_words resume_words : gset string) (group : group_data) :
  Forall (λ x, (0 <= x)%Q ∧ (x <= 1)%Q)
    (triggered_domain_scores domain_keyword_map jd_words resume_words group).2.
Proof.
  unfold triggered_domain_scores.
  assert (∀ acc : nat * list Q,
    Forall (λ x, (0 <= x)%Q ∧ (x <= 1)%Q) acc.2 →
    Forall (λ x, (0 <= x)%Q ∧ (x <= 1)%Q)
      (foldl (λ '(triggered_domains, domain_scores) domain,
           match dict_get domain_keyword_map domain with
           | Some domain_keywords =>
               let domain_jd_keywords := domain_keywords ∩ jd_words in
               if nonempty domain_jd_keywords then
                 let matched_keywords := domain_jd_keywords ∩ resume_words in
                 let domain_score :=
                   if nonempty domain_jd_keywords
                   then (Qnat (size matched_keywords) / Qnat (size domain_jd_keywords))%Q
                   else 0%Q in
                 (S triggered_domains, domain_scores ++ [domain_score])
               else (triggered_domains, domain_scores)
           | None => (triggered_domains, domain_scores)
           end) acc (signal_domains group)).2) as Hgen.
  { induction (signal_domains group) as [|d ds IH]; intros [n l] Hacc; [done|].
    cbn [foldl]. apply IH.
    destruct (dict_get domain_keyword_map d) as [kw|]; [|done].
    cbv zeta. destruct (nonempty (kw ∩ jd_words)) eqn:Hne; [|done].
    cbn [snd]. apply Forall_app. split; [done|].
    apply Forall_singleton. apply ratio_bounds.
    - apply subseteq_size. set_solver.
    - by apply nonempty_size_pos. }
  apply Hgen. constructor.
Qed.

Lemma fallback_group_score_in_range (domain_keyword_map : dict (gset string))
    (jd_words resume_words : gset string) (group_name : string) (group : group_data) :
  in_range (fallback_group_score domain_keyword_map jd_words resume_words
              group_name group).
Proof.
  unfold fallback_group_score.
  pose proof (triggered_domain_scores_bounds domain_keyword_map jd_words
                resume_words group) as Hb.
  destruct (triggered_domain_scores _ _ _ _) as [n l]. cbn [snd] in Hb.
  destruct (1 <=? n)%nat; [|apply in_range_0].
  apply py_min_100_in_range.
  assert (0 <= match l with
               | [] => 0
               | _ :: _ => Qsum l / Qnat (length l)
               end)%Q as Havg.
  { destruct l as [|x l]; [lra|].
    by destruct (mean_bounds 1 (x :: l) Hb). }
  repeat match goal with |- context [if ?b then _ else _] => destruct b end; nra.
Qed.

Lemma fallback_detection_in_range (domain_keyword_map : dict (gset string))
    (jd_words resume_words : gset string) (soc_groups : dict group_data)
    (start : prediction) :
  Forall in_range (dict_values (soc_scores start)) →
  Forall in_range
    (dict_values (soc_scores (fallback_detection domain_keyword_map jd_words
                                resume_words soc_groups start))).
Proof.
  unfold fallback_detection. revert start.
  induction soc_groups as [|[name group] groups IH]; intros start Hstart; [done|].
  cbn [foldl]. apply IH.
  assert (Forall in_range
            (dict_values (dict_set (soc_scores start) name
               (round1 (fallback_group_score domain_keyword_map jd_words
                          resume_words name group))))) as Hset.
  { apply Forall_dict_set; [|done].
    apply round1_in_range, fallback_group_score_in_range. }
  by destruct (Qgtb _ _).
Qed.

Lemma fill_missing_groups_in_range (soc_groups : dict group_data) (scores : dict Q) :
  Forall in_range (dict_values scores) →
  Forall in_range (dict_values (fill_missing_groups soc_groups scores)).
Proof.
  unfold fill_missing_groups. revert scores.
  induction (dict_keys soc_groups) as [|k ks IH]; intros scores Hs; [done|].
  cbn [foldl]. apply IH. destruct (negb _); [|done].
  apply Forall_dict_set; [apply in_range_0 | done].
Qed.

Lemma predict_soc_group_in_range (jd_text : string) (jd_words resume_words : gset string)
    (domain_keyword_map : dict (gset string)) (soc_groups : dict group_data)
    (soc_override : option string) :
  Forall in_range
    (dict_values (soc_scores (predict_soc_group jd_text jd_words resume_words
                                domain_keyword_map soc_groups soc_override))).
Proof.
  unfold predict_soc_group. cbn [soc_scores].
  apply fill_missing_groups_in_range.
  destruct (override_applies soc_override soc_groups).
  - cbn [soc_scores].
    assert (∀ acc : dict Q, Forall in_range (dict_values acc) →
      Forall in_range (dict_values
        (foldl (λ scores group_name,
                  dict_set scores group_name
                    (if bool_decide (Some group_name = soc_override)
                     then 100%Q else 0%Q)) acc (dict_keys soc_groups)))) as Hgen.
    { induction (dict_keys soc_groups) as [|k ks IH]; intros acc Hacc; [done|].
      cbn [foldl]. apply IH. apply Forall_dict_set; [|done].
      destruct (bool_decide _); [apply in_range_100 | apply in_range_0]. }
    apply Hgen. constructor.
  - destruct (_ && _).
    { cbn [soc_scores]. unfold it_management_scores, dict_values. cbn [map snd].
      repeat constructor; unfold Qle; simpl; lia. }
    destruct (2 <=? _)%nat.
    { cbn [soc_scores]. unfold it_scores, dict_values. cbn [map snd].
      repeat constructor; unfold Qle; simpl; lia. }
    destruct (2 <=? _)%nat.
    { cbn [soc_scores]. unfold management_scores, dict_values. cbn [map snd].
      repeat constructor; unfold Qle; simpl; lia. }
    apply fallback_detection_in_range. constructor.
Qed.

(** *** Trust and visibility *)

Lemma trust_visibility_in_range (results : AnalysisResult) :
  Forall in_range (dict_values (domain_scores results)) →
  in_range (calculate_trust_visibility_scores results).1
  ∧ in_range (calculate_trust_visibility_scores results).2.
Proof.
  intros Hscores. unfold calculate_trust_visibility_scores. cbn [fst snd]. split.
  - apply round1_in_range.
    set (trust_scores := map snd _).
    assert (Forall in_range trust_scores) as Ht.
    { apply Forall_forall. intros x Hx. subst trust_scores.
      apply list_elem_of_fmap in Hx as ([k s] & -> & Hin).
      apply list_elem_of_filter in Hin as [_ Hin].
      apply (proj1 (Forall_forall _ _) Hscores).
      apply list_elem_of_fmap. by exists (k, s). }
    destruct trust_scores as [|x l] eqn:Hl; [apply in_range_0|].
    by apply (mean_bounds 100 (x :: l)).
  - apply round1_in_range.
    destruct (domain_gaps results) as [|entry gaps] eqn:Hgaps.
    + destruct (domain_scores results); [apply in_range_0 | apply in_range_100].
    + apply ratio_in_range; [|simpl; lia].
      etrans; [apply length_filter|]. unfold dict_keys. by rewrite length_map.
Qed.

(** C4: every score of an analysis lies between 0 and 100: the scores of
    the domains, the scores of the occupation groups, the overall score, and
    the trust and visibility scores computed from the result. *)
Theorem scores_in_range {order : SetOrder}
    (domains : dict (list string)) (soc_groups : dict group_data)
    (resume_text jd_text : string) (resume_words jd_words : gset string)
    (soc_override : option string) :
  let r := analyse domains soc_groups resume_text jd_text resume_words jd_words
             soc_override in
  Forall in_range (dict_values (domain_scores r))
  ∧ Forall in_range (dict_values (result_soc_scores r))
  ∧ in_range (overall_score r)
  ∧ in_range (calculate_trust_visibility_scores r).1
  ∧ in_range (calculate_trust_visibility_scores r).2.
Proof.
  intros r.
  assert (Forall in_range (dict_values (domain_scores r))) as Hd
    by apply score_domains_in_range.
  split; [exact Hd|].
  split; [apply predict_soc_group_in_range|].
  split; [apply round1_in_range, compute_overall_score_in_range|].
  by apply trust_visibility_in_range.
Qed.

(** ** The store during an analysis *)

(** The loop that writes the business terms, run on a store where the
    enhanced ontology [e] refers to the dict of domains at [sd]. *)
Lemma write_business_terms_loop (e sd : loc) (fields : dict loc)
    (l : dict (list string)) (h : heap) (d : dict (list string)) :
  dict_get fields "SignalDomains" = Some sd →
  h !! e = Some (ObjOntology fields) → h !! sd = Some (ObjDomains d) →
  for_each l (write_business_terms e) h
  = (Ok tt, <[sd := ObjDomains (applyOverrides d l)]> h).
Proof.
  intros Hsd. revert h d. induction l as [|[k v] l IH]; intros h d He Hd.
  - unfold applyOverrides. cbn [for_each foldl]. unfold ret.
    by rewrite list_insert_id.
  - assert (e ≠ sd) as Hne by (intros ->; congruence).
    assert (sd < length h)%nat as Hlt by (by eapply lookup_lt_Some).
    set (h1 := <[sd := ObjDomains (dict_set d k v)]> h).
    assert (write_business_terms e (k, v) h = (Ok tt, h1)) as Hstep.
    { unfold write_business_terms, bind, get_item, has_domain, set_domain.
      rewrite He, Hsd, Hd. destruct (dict_has d k); by rewrite He, Hsd, Hd. }
    cbn [for_each]. unfold bind at 1. rewrite Hstep.
    rewrite (IH h1 (dict_set d k v)).
    + subst h1. by rewrite list_insert_insert_eq.
    + subst h1. by rewrite list_lookup_insert_ne.
    + subst h1. by rewrite list_lookup_insert_eq.
Qed.

(** What the enhancement does, on every store. *)
Lemma enhance_ontology_eq (ontology : loc) (h : heap) :
  enhance_ontology ontology h
  = match h !! ontology with
    | Some (ObjOntology fields) =>
        let h1 := h ++ [ObjOntology fields] in
        match dict_get fields "SignalDomains" with
        | Some sd =>
            match h !! sd with
            | Some (ObjDomains d) =>
                (Ok (length h),
                 <[sd := ObjDomains (applyOverrides d business_term_mappings)]> h1)
            | _ => (Exn "TypeError", h1)
            end
        | None => (Exn "KeyError", h1)
        end
    | _ => (Exn "TypeError", h)
    end.
Proof.
  unfold enhance_ontology, bind at 1, copy_ontology.
  destruct (h !! ontology) as [[fields| |]|] eqn:Ho; try done.
  cbv zeta. set (h1 := h ++ [ObjOntology fields]).
  assert (h1 !! length h = Some (ObjOntology fields)) as He.
  { subst h1. by rewrite lookup_app_r, Nat.sub_diag. }
  destruct (dict_get fields "SignalDomains") as [sd|] eqn:Hsd.
  - destruct (h !! sd) as [[| d |]|] eqn:Hd.
    2: { assert (h1 !! sd = Some (ObjDomains d)) as Hd1.
         { subst h1. rewrite lookup_app_l; [done | by eapply lookup_lt_Some]. }
         unfold bind.
         by rewrite (write_business_terms_loop _ sd fields _ h1 d Hsd He Hd1). }
    all: assert (∀ d, h1 !! sd ≠ Some (ObjDomains d)) as Hno
      by (intros d'; subst h1; destruct (decide (sd < length h)%nat);
          [rewrite lookup_app_l, Hd by done; congruence
          |rewrite lookup_app_r by lia;
           destruct (sd - length h)%nat as [|[|?]]; simpl; congruence]).
    all: unfold business_term_mappings; cbn [for_each];
      unfold bind, write_business_terms, bind, get_item, has_domain;
      rewrite He, Hsd;
      destruct (h1 !! sd) as [[| d' |]|] eqn:Hd1; try done;
      by destruct (Hno d').
  - unfold business_term_mappings. cbn [for_each].
    unfold bind, write_business_terms, bind, get_item. by rewrite He, Hsd.
Qed.


(** * Further properties *)

(** ** The shape of the normalised words *)









(** ** Licences *)

(** [s.startswith(p)]: [s] is [p] followed by something. *)
Lemma starts_with_prefix (p s : string) :
  Str.starts_with p s = true ↔ ∃ r, s = p +:+ r.
Proof.
  revert s. induction p as [|a p IH]; intros s; simpl.
  - split; eauto.
  - destruct s as [|b s].
    + split; [done | by intros [r ?]].
    + destruct (Ascii.eqb a b) eqn:Hab.
      * apply Ascii.eqb_eq in Hab as ->. rewrite IH.
        split; intros [r Hr]; exists r; [by rewrite Hr | by injection Hr].
      * apply Ascii.eqb_neq in Hab.
        split; [done|]. intros [r Hr]. injection Hr as ? ?. congruence.
Qed.

Lemma lstrip_head (s : string) :
  match Str.lstrip s with
  | String c _ => Str.is_space c = false
  | EmptyString => True
  end.
Proof.
  induction s as [|c s IH]; [done|].
  cbn [Str.lstrip]. destruct (Str.is_space c) eqn:Hc; [exact IH | exact Hc].
Qed.

Lemma lstrip_rstrip (s : string) :
  match s with
  | String c _ => Str.is_space c = false
  | EmptyString => True
  end →
  Str.lstrip (Str.rstrip s) = Str.rstrip s.
Proof.
  destruct s as [|c s]; [done|]. intros Hc. cbn [Str.rstrip].
  destruct (Str.rstrip s); rewrite ?Hc; cbn [Str.lstrip]; by rewrite Hc.
Qed.

Lemma rstrip_idem (s : string) : Str.rstrip (Str.rstrip s) = Str.rstrip s.
Proof.
  induction s as [|c s IH]; simpl; [done|].
  destruct (Str.rstrip s) as [|d t] eqn:Hr.
  - destruct (Str.is_space c) eqn:Hc; simpl; [done | by rewrite Hc].
  - change (Str.rstrip (String c (String d t)))
      with (match Str.rstrip (String d t) with
            | EmptyString => if Str.is_space c then EmptyString else String c EmptyString
            | t' => String c t'
            end).
    by rewrite IH.
Qed.

(** Stripping twice is stripping once. *)
Lemma strip_idem (s : string) : Str.strip (Str.strip s) = Str.strip s.
Proof.
  unfold Str.strip. rewrite lstrip_rstrip by apply lstrip_head.
  apply rstrip_idem.
Qed.

Lemma strip_empty : Str.strip "" = "".
Proof. done. Qed.

(** White space around a licence key has no effect on the tier. *)
Lemma get_user_mode_strip (secrets : option (list string)) (key : string) :
  get_user_mode secrets (Str.strip key) = get_user_mode secrets key.
Proof.
  unfold get_user_mode, verify_license_key. by rewrite strip_idem.
Qed.

(** X3: the licence check grants "pro" or "enterprise" and nothing else, and
    grants a tier exactly when the stripped key is one of the valid keys and
    its upper-case form starts with "PSA-PRO-" or "PSA-ENT-"; a valid key of
    any other form, a "freemium" one, opens nothing. *)
Theorem check_license_status_spec (secrets : option (list string))
    (license_key : string) (tier : string) :
  check_license_status secrets license_key = Some tier ↔
  verify_license_key secrets license_key = true
  ∧ ((tier = "enterprise"
      ∧ Str.starts_with "PSA-ENT-" (Str.upper (Str.strip license_key)) = true)
     ∨ (tier = "pro"
        ∧ Str.starts_with "PSA-PRO-" (Str.upper (Str.strip license_key)) = true)).
Proof.
  assert (∀ s, Str.starts_with "PSA-ENT-" s = true →
               Str.starts_with "PSA-PRO-" s = true → False) as Hexcl.
  { intros s [r1 ->]%starts_with_prefix [r2 Heq]%starts_with_prefix.
    discriminate Heq. }
  unfold check_license_status, get_user_mode.
  destruct (bool_decide (license_key = "")) eqn:Hempty.
  { apply bool_decide_eq_true in Hempty as ->.
    split; [done|]. intros [_ [[_ H]|[_ H]]]; done. }
  destruct (verify_license_key secrets license_key); [|split; [done | by intros [? _]]].
  cbv zeta.
  destruct (Str.starts_with "PSA-ENT-" _) eqn:Hent.
  { split.
    - intros [= <-]. auto.
    - intros [_ [[-> _]|[-> Hpro]]]; [done|]. by destruct (Hexcl _ Hent Hpro). }
  destruct (Str.starts_with "PSA-PRO-" _) eqn:Hpro.
  { split.
    - intros [= <-]. auto.
    - intros [_ [[-> H]|[-> _]]]; done. }
  split.
  - intros H. destruct (Str.starts_with "PSA-FREE-" _); by vm_compute in H.
  - intros [_ [[_ H]|[_ H]]]; done.
Qed.

(** X2: white space before and after a licence key has no effect on the
    licence check. *)
Theorem check_license_status_strip (secrets : option (list string)) (license_key : string) :
  check_license_status secrets (Str.strip license_key)
  = check_license_status secrets license_key.
Proof.
  unfold check_license_status. rewrite get_user_mode_strip.
  destruct (bool_decide (license_key = "")) eqn:Hk.
  { apply bool_decide_eq_true in Hk as ->. done. }
  destruct (bool_decide (Str.strip license_key = "")) eqn:Hs; [|done].
  apply bool_decide_eq_true in Hs.
  unfold get_user_mode. rewrite Hs.
  by destruct (verify_license_key secrets license_key).
Qed.

(** X4: where no list of keys is configured, the three default keys are the
    valid ones, each with the tier its prefix names; so exactly
    "PSA-PRO-456" and "PSA-ENT-789", white space around them apart, pass the
    licence check. *)
Theorem default_keys_tiers (key : string) :
  get_user_mode None key
  = (if bool_decide (Str.strip key = "PSA-ENT-789") then "enterprise"
     else if bool_decide (Str.strip key = "PSA-PRO-456") then "pro"
     else if bool_decide (Str.strip key = "PSA-FREE-123") then "freemium"
     else "invalid")
  ∧ check_license_status None key
    = (if bool_decide (Str.strip key = "PSA-ENT-789") then Some "enterprise"
       else if bool_decide (Str.strip key = "PSA-PRO-456") then Some "pro"
       else None).
Proof.
  assert (get_user_mode None key
          = (if bool_decide (Str.strip key = "PSA-ENT-789") then "enterprise"
             else if bool_decide (Str.strip key = "PSA-PRO-456") then "pro"
             else if bool_decide (Str.strip key = "PSA-FREE-123") then "freemium"
             else "invalid")) as Hmode.
  { unfold get_user_mode, verify_license_key, default_valid_keys.
    destruct (decide (Str.strip key = "PSA-ENT-789")) as [->|H1]; [done|].
    destruct (decide (Str.strip key = "PSA-PRO-456")) as [->|H2]; [done|].
    destruct (decide (Str.strip key = "PSA-FREE-123")) as [->|H3]; [done|].
    rewrite !bool_decide_eq_false_2; [done..|].
    rewrite !elem_of_cons, elem_of_nil. tauto. }
  split; [exact Hmode|].
  unfold check_license_status. rewrite Hmode.
  destruct (bool_decide (key = "")) eqn:Hk.
  { apply bool_decide_eq_true in Hk as ->. done. }
  repeat (destruct (bool_decide (Str.strip key = _)); [done|]). done.
Qed.

(** ** More on the domain scorer *)

Lemma round_half_even_integer (x : Q) (z : Z) :
  (x == inject_Z z)%Q → round_half_even x = z.
Proof.
  unfold Qeq, round_half_even. destruct x as [n d]. simpl. intros Heq.
  assert (n = z * Z.pos d)%Z as -> by lia.
  rewrite Z.div_mul, Z.mod_mul by lia. simpl. done.
Qed.

Lemma round1_100 (x : Q) : (x == 100)%Q → round1 x = 100%Q.
Proof.
  intros Hx. unfold round1.
  rewrite (round_half_even_integer _ 1000); [done|].
  rewrite Hx. done.
Qed.

Lemma round1_0 (x : Q) : (x == 0)%Q → round1 x = 0%Q.
Proof.
  intros Hx. unfold round1.
  rewrite (round_half_even_integer _ 0); [done|].
  rewrite Hx. done.
Qed.

Lemma rank_gaps_length_eq {order : SetOrder} (gaps : gset string) :
  length (rank_gaps gaps) = (20 `min` size gaps)%nat.
Proof.
  rewrite rank_gaps_spec, length_take.
  by rewrite filter_app_complement, length_set_iter.
Qed.

(** X5: the domains with a score are those whose keywords meet the job
    description; a domain with no keyword in the job description is left
    out, not scored 0. *)
Theorem scored_iff_jd_overlap {order : SetOrder}
    (domains : dict (list string)) (soc_groups : dict group_data)
    (resume_text jd_text : string) (resume_words jd_words : gset string)
    (soc_override : option string) (d : string) :
  let r := analyse domains soc_groups resume_text jd_text resume_words jd_words
             soc_override in
  d ∈ dict_keys (domain_scores r)
  ↔ domain_jd_keywords_of (build_domain_keyword_map domains) jd_words d ≠ ∅.
Proof.
  intros r. rewrite <- dict_get_is_Some. subst r. unfold analyse.
  cbn [domain_scores].
  rewrite score_domains_scores by apply build_domain_keyword_map_NoDup.
  unfold domain_jd_keywords_of.
  destruct (dict_get _ d) as [kw|]; simpl.
  - destruct (nonempty (kw ∩ jd_words)) eqn:Hne.
    + apply nonempty_true in Hne. split; [done | eauto].
    + apply nonempty_false in Hne. split; [by intros [? ?] | done].
  - split; [by intros [? ?] | done].
Qed.

(** X6: a scored domain has no gap list exactly when each of its
    job-description keywords is found in the resume text, and its score is
    then 100. *)
Theorem no_gaps_iff_all_matched {order : SetOrder}
    (domains : dict (list string)) (soc_groups : dict group_data)
    (resume_text jd_text : string) (resume_words jd_words : gset string)
    (soc_override : option string) (d : string) :
  let r := analyse domains soc_groups resume_text jd_text resume_words jd_words
             soc_override in
  let domain_jd_keywords :=
    domain_jd_keywords_of (build_domain_keyword_map domains) jd_words d in
  d ∈ dict_keys (domain_scores r) →
  (dict_get (domain_gaps r) d = None
   ↔ matched_set domain_jd_keywords resume_text = domain_jd_keywords)
  ∧ (dict_get (domain_gaps r) d = None →
     dict_get (domain_scores r) d = Some 100%Q).
Proof.
  intros r djk Hscored. apply dict_get_is_Some in Hscored.
  destruct (scored_domain_inv _ _ _ _ _ _ _ _ Hscored) as (kw & Hkw & Hne).
  assert (djk = kw ∩ jd_words) as Hdjk.
  { subst djk. unfold domain_jd_keywords_of. by rewrite Hkw. }
  assert (matched_set djk resume_text
          = matched_in_resume djk (Str.lower resume_text)) as Hm.
  { unfold matched_set. by rewrite matched_in_resume_spec. }
  assert (dict_get (domain_gaps r) d = None
          ↔ matched_set djk resume_text = djk) as Hiff.
  { subst r. unfold analyse. cbn [domain_gaps].
    rewrite score_domains_gaps by apply build_domain_keyword_map_NoDup.
    rewrite Hkw, Hne. cbn [andb]. rewrite <- Hdjk, gaps_of_difference, <- Hm.
    pose proof (matched_in_resume_subseteq djk (Str.lower resume_text)) as Hsub.
    rewrite <- Hm in Hsub.
    destruct (nonempty (djk ∖ matched_set djk resume_text)) eqn:Hg.
    - apply nonempty_true in Hg. split; [done|]. intros Heq.
      rewrite Heq in Hg. destruct Hg. set_solver.
    - apply nonempty_false in Hg. split; [|done]. intros _.
      apply set_eq. intros k. split; [by apply Hsub|].
      intros Hk. destruct (decide (k ∈ matched_set djk resume_text)); [done|].
      set_solver. }
  split; [exact Hiff|].
  intros Hnone. apply Hiff in Hnone.
  subst r. unfold analyse. cbn [domain_scores].
  rewrite score_domains_scores by apply build_domain_keyword_map_NoDup.
  rewrite Hkw, Hne. f_equal. apply round1_100.
  rewrite <- Hdjk, <- Hm, Hnone.
  assert (0 < Qnat (size djk))%Q as Hpos.
  { apply Qnat_pos. rewrite Hdjk. by apply nonempty_size_pos. }
  field. lra.
Qed.

(** X7: a scored domain none of whose job-description keywords is found in
    the resume text has score 0, and its gap list holds keywords of the
    domain, 20 of them or all when there are fewer. *)
Theorem total_gap {order : SetOrder}
    (domains : dict (list string)) (soc_groups : dict group_data)
    (resume_text jd_text : string) (resume_words jd_words : gset string)
    (soc_override : option string) (d : string) :
  let r := analyse domains soc_groups resume_text jd_text resume_words jd_words
             soc_override in
  let domain_jd_keywords :=
    domain_jd_keywords_of (build_domain_keyword_map domains) jd_words d in
  d ∈ dict_keys (domain_scores r) →
  matched_set domain_jd_keywords resume_text = ∅ →
  dict_get (domain_scores r) d = Some 0%Q
  ∧ ∃ gaps, dict_get (domain_gaps r) d = Some gaps
            ∧ length gaps = (20 `min` size domain_jd_keywords)%nat
            ∧ ∀ g, g ∈ gaps → g ∈ domain_jd_keywords.
Proof.
  intros r djk Hscored Hnone. apply dict_get_is_Some in Hscored.
  destruct (scored_domain_inv _ _ _ _ _ _ _ _ Hscored) as (kw & Hkw & Hne).
  assert (djk = kw ∩ jd_words) as Hdjk.
  { subst djk. unfold domain_jd_keywords_of. by rewrite Hkw. }
  assert (matched_in_resume djk (Str.lower resume_text) = ∅) as Hm.
  { rewrite <- Hnone. unfold matched_set. by rewrite matched_in_resume_spec. }
  assert (gaps_of djk (Str.lower resume_text) = djk) as Hgaps.
  { rewrite gaps_of_difference, Hm. set_solver. }
  subst r. unfold analyse. cbn [domain_scores domain_gaps]. split.
  - rewrite score_domains_scores by apply build_domain_keyword_map_NoDup.
    rewrite Hkw, Hne. f_equal. apply round1_0.
    rewrite <- Hdjk, Hm, size_empty.
    change (Qnat 0) with 0%Q. unfold Qdiv. lra.
  - rewrite score_domains_gaps by apply build_domain_keyword_map_NoDup.
    rewrite Hkw, Hne. cbn [andb]. rewrite <- Hdjk, Hgaps, Hdjk, Hne, <- Hdjk.
    eexists. split; [done|]. split; [apply rank_gaps_length_eq|].
    apply rank_gaps_elem_of.
Qed.

Lemma no_gaps_iff_all_matched_witness :
  "Leadership" ∈ dict_keys (domain_scores perfect_result)
  ∧ dict_get (domain_gaps perfect_result) "Leadership" = None
  ∧ dict_get (domain_scores perfect_result) "Leadership" = Some 100%Q.
Proof.
  assert ("Leadership" ∈ dict_keys (domain_scores perfect_result)) as Hin.
  { vm_compute. apply list_elem_of_here. }
  assert (dict_get (domain_gaps perfect_result) "Leadership" = None) as Hnone.
  { by vm_compute. }
  split; [exact Hin|]. split; [exact Hnone|].
  exact (proj2 (no_gaps_iff_all_matched (order := elements_order) sample_domains
                  sample_groups sample_resume sample_jd
                  (clean_and_extract_words sample_resume)
                  (clean_and_extract_words sample_jd) None "Leadership" Hin) Hnone).
Defined.

Lemma total_gap_witness :
  "Leadership" ∈ dict_keys (domain_scores sample_result)
  ∧ matched_set
      (domain_jd_keywords_of (build_domain_keyword_map sample_domains)
         (clean_and_extract_words sample_jd) "Leadership") cooking_resume = ∅
  ∧ dict_get (domain_scores sample_result) "Leadership" = Some 0%Q.
Proof.
  assert ("Leadership" ∈ dict_keys (domain_scores sample_result)) as Hin.
  { vm_compute. apply list_elem_of_here. }
  assert (matched_set
            (domain_jd_keywords_of (build_domain_keyword_map sample_domains)
               (clean_and_extract_words sample_jd) "Leadership") cooking_resume
          = ∅) as Hnone.
  { apply (bool_decide_unpack _). by vm_compute. }
  split; [exact Hin|]. split; [exact Hnone|].
  exact (proj1 (total_gap (order := elements_order) sample_domains
                  sample_groups cooking_resume sample_jd
                  (clean_and_extract_words cooking_resume)
                  (clean_and_extract_words sample_jd) None "Leadership" Hin Hnone)).
Defined.

(** ** More on the occupation predictor *)

(** X8: every occupation group of the ontology has a score, whichever rule
    made the prediction. *)
Theorem every_group_scored (jd_text : string) (jd_words resume_words : gset string)
    (domain_keyword_map : dict (gset string)) (soc_groups : dict group_data)
    (soc_override : option string) (g : string) :
  g ∈ dict_keys soc_groups →
  is_Some (dict_get (soc_scores (predict_soc_group jd_text jd_words resume_words
                                   domain_keyword_map soc_groups soc_override)) g).
Proof.
  intros Hin. unfold predict_soc_group. cbn [soc_scores].
  rewrite fill_missing_groups_get. rewrite decide_True by done.
  destruct (dict_get _ g); eauto.
Qed.

Lemma every_group_scored_witness :
  "Management Occupations" ∈ dict_keys sample_groups
  ∧ is_Some (dict_get (soc_scores (predict_soc_group "Hello world"
                                     (clean_and_extract_words "Hello world")
                                     (clean_and_extract_words cooking_resume)
                                     (build_domain_keyword_map sample_domains)
                                     sample_groups None))
                      "Management Occupations").
Proof.
  assert ("Management Occupations" ∈ dict_keys sample_groups) as Hin
    by apply list_elem_of_here.
  split; [exact Hin|].
  exact (every_group_scored "Hello world" (clean_and_extract_words "Hello world")
           (clean_and_extract_words cooking_resume)
           (build_domain_keyword_map sample_domains) sample_groups None
           "Management Occupations" Hin).
Defined.

(** X9: without an override that applies, a job description with at least
    2 IT indicator phrases that does not reach the thresholds of the first
    rule (3 IT and 2 management phrases) is predicted "Computer and
    Mathematical Occupations" with score 80; the scores are the fixed table
    of that rule, with 0 for every other group of the ontology. *)
Theorem it_rule (jd_text : string) (jd_words resume_words : gset string)
    (domain_keyword_map : dict (gset string)) (soc_groups : dict group_data)
    (soc_override : option string) :
  let p := predict_soc_group jd_text jd_words resume_words domain_keyword_map
             soc_groups soc_override in
  let it_score := count_in it_indicators (Str.lower jd_text) in
  let mgmt_score := count_in management_indicators (Str.lower jd_text) in
  override_applies soc_override soc_groups = false →
  (2 ≤ it_score)%nat → (it_score < 3 ∨ mgmt_score < 2)%nat →
  best_soc_group p = Some "Computer and Mathematical Occupations"
  ∧ max_soc_score p = 80%Q
  ∧ soc_scores p = fill_missing_groups soc_groups it_scores
  ∧ dict_get (soc_scores p) "Computer and Mathematical Occupations" = Some 80%Q
  ∧ dict_get (soc_scores p) "Management Occupations" = Some 65%Q.
Proof.
  intros p it_score mgmt_score Hov Hit Hnot. subst p.
  unfold predict_soc_group. rewrite Hov. fold it_score mgmt_score.
  assert ((3 <=? it_score)%nat && (2 <=? mgmt_score)%nat = false) as ->.
  { apply andb_false_iff. rewrite !Nat.leb_gt. lia. }
  apply Nat.leb_le in Hit. rewrite Hit.
  cbn [best_soc_group max_soc_score soc_scores].
  split; [done|]. split; [done|]. split; [done|].
  by rewrite !fill_missing_groups_get.
Qed.

Lemma it_rule_witness :
  override_applies None sample_groups = false
  ∧ (2 ≤ count_in it_indicators (Str.lower systems_jd))%nat
  ∧ (count_in it_indicators (Str.lower systems_jd) < 3
     ∨ count_in management_indicators (Str.lower systems_jd) < 2)%nat
  ∧ best_soc_group (predict_soc_group systems_jd (clean_and_extract_words systems_jd)
                      (clean_and_extract_words cooking_resume)
                      (build_domain_keyword_map sample_domains) sample_groups None)
    = Some "Computer and Mathematical Occupations".
Proof.
  assert (2 ≤ count_in it_indicators (Str.lower systems_jd))%nat as Hit
    by (vm_compute; lia).
  assert (count_in it_indicators (Str.lower systems_jd) < 3
          ∨ count_in management_indicators (Str.lower systems_jd) < 2)%nat as Hnot
    by (right; vm_compute; lia).
  split; [reflexivity|]. split; [exact Hit|]. split; [exact Hnot|].
  exact (proj1 (it_rule systems_jd (clean_and_extract_words systems_jd)
                  (clean_and_extract_words cooking_resume)
                  (build_domain_keyword_map sample_domains) sample_groups None
                  eq_refl Hit Hnot)).
Defined.

(** X10: without an override that applies, a job description with fewer
    than 2 IT indicator phrases and at least 2 management ones is predicted
    "Management Occupations" with score 75; the scores are the fixed table
    of that rule, which has no entry for "AI, Data & UX Leadership
    Occupations", and 0 for every other group of the ontology. *)
Theorem management_rule (jd_text : string) (jd_words resume_words : gset string)
    (domain_keyword_map : dict (gset string)) (soc_groups : dict group_data)
    (soc_override : option string) :
  let p := predict_soc_group jd_text jd_words resume_words domain_keyword_map
             soc_groups soc_override in
  override_applies soc_override soc_groups = false →
  (count_in it_indicators (Str.lower jd_text) < 2)%nat →
  (2 ≤ count_in management_indicators (Str.lower jd_text))%nat →
  best_soc_group p = Some "Management Occupations"
  ∧ max_soc_score p = 75%Q
  ∧ soc_scores p = fill_missing_groups soc_groups management_scores
  ∧ dict_get (soc_scores p) "Management Occupations" = Some 75%Q
  ∧ dict_get (soc_scores p) "AI, Data & UX Leadership Occupations"
    = (if decide ("AI, Data & UX Leadership Occupations" ∈ dict_keys soc_groups)
       then Some 0%Q else None).
Proof.
  intros p Hov Hit Hmgmt. subst p. unfold predict_soc_group. rewrite Hov.
  assert ((3 <=? count_in it_indicators (Str.lower jd_text))%nat = false) as ->
    by (apply Nat.leb_gt; lia).
  assert ((2 <=? count_in it_indicators (Str.lower jd_text))%nat = false) as ->
    by (apply Nat.leb_gt; lia).
  apply Nat.leb_le in Hmgmt. rewrite Hmgmt.
  cbn [andb best_soc_group max_soc_score soc_scores].
  split; [done|]. split; [done|]. split; [done|].
  by rewrite !fill_missing_groups_get.
Qed.

Lemma management_rule_witness :
  override_applies None sample_groups = false
  ∧ (count_in it_indicators (Str.lower management_jd) < 2)%nat
  ∧ (2 ≤ count_in management_indicators (Str.lower management_jd))%nat
  ∧ best_soc_group (predict_soc_group management_jd
                      (clean_and_extract_words management_jd)
                      (clean_and_extract_words cooking_resume)
                      (build_domain_keyword_map sample_domains) sample_groups None)
    = Some "Management Occupations".
Proof.
  assert (count_in it_indicators (Str.lower management_jd) < 2)%nat as Hit
    by (vm_compute; lia).
  assert (2 ≤ count_in management_indicators (Str.lower management_jd))%nat as Hm
    by (vm_compute; lia).
  split; [reflexivity|]. split; [exact Hit|]. split; [exact Hm|].
  exact (proj1 (management_rule management_jd (clean_and_extract_words management_jd)
                  (clean_and_extract_words cooking_resume)
                  (build_domain_keyword_map sample_domains) sample_groups None
                  eq_refl Hit Hm)).
Defined.




(** ** The keyword index and the business terms *)

(** A loop that sets one key per entry of a dict: the value of a key comes
    from the entry of that key. *)
Lemma foldl_dict_set_get {A V : Type} (f : A → V) (m : dict A) (acc : dict V)
    (k : string) :
  NoDup (dict_keys m) →
  dict_get (foldl (λ d '(key, a), dict_set d key (f a)) acc m) k
  = match dict_get m k with
    | Some a => Some (f a)
    | None => dict_get acc k
    end.
Proof.
  revert acc. induction m as [|[key a] m IH]; intros acc Hnd; [done|].
  change (dict_keys ((key, a) :: m)) with (key :: dict_keys m) in Hnd.
  apply NoDup_cons in Hnd as [Hkey Hnd].
  cbn [foldl dict_get]. rewrite IH by done.
  destruct (decide (k = key)) as [->|Hne].
  - apply dict_get_None in Hkey. by rewrite Hkey, dict_get_set_eq.
  - destruct (dict_get m k); [done|]. by rewrite dict_get_set_ne.
Qed.

Lemma domain_keywords_of_elem (keywords : list string) (k : string) :
  k ∈ domain_keywords_of keywords
  ↔ ∃ phrase, phrase ∈ keywords
              ∧ (k = Str.lower phrase ∨ k ∈ Str.split (Str.lower phrase)).
Proof.
  unfold domain_keywords_of.
  assert (∀ acc : gset string,
    k ∈ foldl (λ domain_keywords phrase,
                 (domain_keywords ∪ {[Str.lower phrase]})
                 ∪ list_to_set (Str.split (Str.lower phrase))) acc keywords
    ↔ k ∈ acc ∨ ∃ phrase, phrase ∈ keywords
                 ∧ (k = Str.lower phrase ∨ k ∈ Str.split (Str.lower phrase)))
    as Hgen.
  { induction keywords as [|p ps IH]; intros acc; cbn [foldl].
    - split; [auto|]. intros [?|(? & []%elem_of_nil & _)]. done.
    - rewrite IH, !elem_of_union, elem_of_singleton, elem_of_list_to_set. split.
      + intros [[[?|?]|?]|(q & Hq & Hk)]; [by left| | |].
        * right. exists p. split; [apply list_elem_of_here | auto].
        * right. exists p. split; [apply list_elem_of_here | auto].
        * right. exists q. split; [by apply list_elem_of_further | done].
      + intros [?|(q & [->|Hq]%elem_of_cons & Hk)].
        * auto.
        * left. destruct Hk; auto.
        * right. eauto. }
  rewrite Hgen. split; [|auto]. intros [[]%elem_of_empty|?]. done.
Qed.

(** X12: the keyword set of a domain holds, for each phrase of the domain,
    the phrase in lower case and each of its words, and nothing else. *)
Theorem keyword_index_spec (domains : dict (list string)) (d : string)
    (keywords : list string) :
  NoDup (dict_keys domains) → dict_get domains d = Some keywords →
  ∃ X : gset string,
    dict_get (build_domain_keyword_map domains) d = Some X
    ∧ ∀ k, k ∈ X ↔ ∃ phrase, phrase ∈ keywords
                     ∧ (k = Str.lower phrase ∨ k ∈ Str.split (Str.lower phrase)).
Proof.
  intros Hnd Hd. exists (domain_keywords_of keywords). split.
  - unfold build_domain_keyword_map.
    rewrite (foldl_dict_set_get domain_keywords_of) by done. by rewrite Hd.
  - apply domain_keywords_of_elem.
Qed.

Lemma keyword_index_spec_witness :
  NoDup (dict_keys sample_domains)
  ∧ dict_get sample_domains "Leadership" = Some ["team lead"; "leadership"]
  ∧ ∃ X : gset string,
      dict_get (build_domain_keyword_map sample_domains) "Leadership" = Some X
      ∧ "lead" ∈ X.
Proof.
  assert (NoDup (dict_keys sample_domains)) as Hnd.
  { apply NoDup_singleton. }
  split; [exact Hnd|]. split; [reflexivity|].
  destruct (keyword_index_spec sample_domains "Leadership"
              ["team lead"; "leadership"] Hnd eq_refl) as (X & HX & Hiff).
  exists X. split; [exact HX|]. apply Hiff.
  exists "team lead". split; [apply list_elem_of_here|]. right.
  vm_compute. apply list_elem_of_further, list_elem_of_here.
Defined.

Lemma business_term_mappings_NoDup : NoDup (dict_keys business_term_mappings).
Proof. apply (bool_decide_unpack _). by vm_compute. Qed.

Lemma applyOverrides_get (base m : dict (list string)) (k : string) :
  NoDup (dict_keys m) →
  dict_get (applyOverrides base m) k
  = match dict_get m k with
    | Some terms => Some terms
    | None => dict_get base k
    end.
Proof.
  intros Hnd. unfold applyOverrides.
  by rewrite <- (foldl_dict_set_get (λ terms, terms) m base k Hnd).
Qed.

Lemma dict_set_id {V : Type} (d : dict V) (k : string) (v : V) :
  dict_get d k = Some v → dict_set d k v = d.
Proof.
  induction d as [|[k' v'] d IH]; simpl; [done|].
  destruct (decide (k = k')) as [->|Hne]; [by intros [= ->]|].
  intros Hget. by rewrite IH.
Qed.

(** Writing the business terms a second time changes nothing. *)
Lemma applyOverrides_idem (base m : dict (list string)) :
  NoDup (dict_keys m) →
  applyOverrides (applyOverrides base m) m = applyOverrides base m.
Proof.
  intros Hnd. set (d := applyOverrides base m).
  assert (∀ k v, dict_get m k = Some v → dict_get d k = Some v) as Hd.
  { intros k v Hk. subst d. by rewrite applyOverrides_get, Hk. }
  clearbody d. unfold applyOverrides.
  assert (∀ l : dict (list string),
    (∀ k v, (k, v) ∈ l → dict_get d k = Some v) →
    foldl (λ d '(domain, terms), dict_set d domain terms) d l = d) as Hgen.
  { induction l as [|[k v] l IH]; intros Hl; [done|]. cbn [foldl].
    rewrite dict_set_id by (apply Hl, list_elem_of_here).
    apply IH. intros k' v' Hin. by apply Hl, list_elem_of_further. }
  apply Hgen. intros k v Hin. apply Hd. by apply dict_get_elem_NoDup.
Qed.

(** ** The analysis on a well-formed ontology *)

(** What the analysis does once the texts have passed its checks, on a
    store where the ontology has its dict of domains. *)
Lemma run_on_ontology {order : SetOrder} (resume_text jd_text : string)
    (ontology : loc) (soc_override : option string) (h : heap)
    (fields : dict loc) (sd : loc) (d : dict (list string)) :
  resume_text ≠ "" → jd_text ≠ "" →
  clean_and_extract_words resume_text ≠ ∅ → clean_and_extract_words jd_text ≠ ∅ →
  h !! ontology = Some (ObjOntology fields) →
  dict_get fields "SignalDomains" = Some sd →
  h !! sd = Some (ObjDomains d) →
  let d' := applyOverrides d business_term_mappings in
  let h' := <[sd := ObjDomains d']> (h ++ [ObjOntology fields]) in
  soc_groups_of h' fields = soc_groups_of h fields
  ∧ run_enhanced_ontological_analysis resume_text jd_text ontology soc_override h
    = match soc_groups_of h fields with
      | Some groups =>
          (Ok (Analysed (analyse d' groups resume_text jd_text
                           (clean_and_extract_words resume_text)
                           (clean_and_extract_words jd_text) soc_override)), h')
      | None => (Exn "TypeError", h')
      end.
Proof.
  intros Hr Hj Hrw Hjw Ho Hsd Hd d' h'.
  assert (sd < length h)%nat as Hsdlt by (by eapply lookup_lt_Some).
  assert (h' !! length h = Some (ObjOntology fields)) as He.
  { subst h'. rewrite list_lookup_insert_ne by lia.
    by rewrite lookup_app_r, Nat.sub_diag. }
  assert (h' !! sd = Some (ObjDomains d')) as Hd2.
  { subst h'. apply list_lookup_insert_eq. rewrite length_app. lia. }
  assert (soc_groups_of h' fields = soc_groups_of h fields) as Hgroups.
  { unfold soc_groups_of. destruct (dict_get fields "SOC_Groups") as [l|]; [|done].
    destruct (decide (l = sd)) as [->|Hne]; [by rewrite Hd2, Hd|].
    subst h'. rewrite list_lookup_insert_ne by done.
    destruct (decide (l < length h)%nat) as [Hlt|Hge].
    - by rewrite lookup_app_l.
    - rewrite lookup_app_r by lia. rewrite (lookup_ge_None_2 h l) by lia.
      by destruct (l - length h)%nat as [|[|?]]. }
  split; [exact Hgroups|].
  unfold run_enhanced_ontological_analysis.
  rewrite !bool_decide_eq_false_2 by done.
  apply nonempty_true in Hrw, Hjw. rewrite Hrw, Hjw. cbn [negb].
  unfold bind at 1. rewrite enhance_ontology_eq, Ho. cbv zeta. rewrite Hsd, Hd.
  fold d' h'.
  unfold bind at 1, get_signal_domains, bind at 1, get_field.
  rewrite He, Hsd. unfold read_domains. rewrite Hd2.
  unfold bind at 1, get_soc_groups, bind at 1, get_field. rewrite He.
  rewrite <- Hgroups. unfold soc_groups_of, read_groups, ret.
  destruct (dict_get fields "SOC_Groups") as [l|]; [|done].
  by destruct (h' !! l) as [[| |g]|].
Qed.



(** X14: an analysis that declines leaves the store as it was: only an
    analysis that goes through writes to the ontology. *)
Theorem declined_leaves_store {order : SetOrder} (resume_text jd_text : string)
    (ontology : loc) (soc_override : option string) (h h' : heap)
    (message : string) :
  run_enhanced_ontological_analysis resume_text jd_text ontology soc_override h
  = (Ok (Declined message), h') →
  h' = h
  ∧ (resume_text = "" ∨ jd_text = "" ∨ clean_and_extract_words resume_text = ∅
     ∨ clean_and_extract_words jd_text = ∅).
Proof.
  unfold run_enhanced_ontological_analysis.
  destruct (bool_decide (resume_text = "")) eqn:Hr.
  { apply bool_decide_eq_true in Hr. intros [= _ <-]. auto. }
  destruct (bool_decide (jd_text = "")) eqn:Hj.
  { apply bool_decide_eq_true in Hj. intros [= _ <-]. auto. }
  destruct (nonempty (clean_and_extract_words resume_text)) eqn:Hrw; cbn [negb].
  2: { apply nonempty_false in Hrw. intros [= _ <-]. auto. }
  destruct (nonempty (clean_and_extract_words jd_text)) eqn:Hjw; cbn [negb].
  2: { apply nonempty_false in Hjw. intros [= _ <-]. auto 6. }
  unfold bind at 1. rewrite enhance_ontology_eq.
  destruct (h !! ontology) as [[fields| |]|]; try done. cbv zeta.
  destruct (dict_get fields "SignalDomains") as [sd|]; [|done].
  destruct (h !! sd) as [[| d |]|]; try done.
  unfold bind at 1.
  destruct (get_signal_domains _ _) as [[domains|e] h1]; [|done].
  unfold bind at 1.
  by destruct (get_soc_groups _ _) as [[groups|e] h2].
Qed.

Lemma declined_leaves_store_witness :
  ∃ message,
    run_enhanced_ontological_analysis (order := elements_order)
      sample_resume "a b" 0 None (ontology_heap sample_domains sample_groups)
    = (Ok (Declined message), ontology_heap sample_domains sample_groups)
    ∧ ontology_heap sample_domains sample_groups
      = ontology_heap sample_domains sample_groups.
Proof.
  eexists.
  assert (run_enhanced_ontological_analysis (order := elements_order)
            sample_resume "a b" 0 None (ontology_heap sample_domains sample_groups)
          = (Ok (Declined "No valid content found in job description"),
             ontology_heap sample_domains sample_groups)) as Hrun.
  { by vm_compute. }
  split; [exact Hrun|].
  exact (proj1 (declined_leaves_store (order := elements_order) sample_resume "a b"
                  0 None _ _ _ Hrun)).
Defined.

(** An analysis that returns a result has passed the four checks of the
    texts and has found the ontology and its domains in the store. *)
Lemma run_analysed_inv {order : SetOrder} (resume_text jd_text : string)
    (ontology : loc) (soc_override : option string) (h h' : heap)
    (r : AnalysisResult) :
  run_enhanced_ontological_analysis resume_text jd_text ontology soc_override h
  = (Ok (Analysed r), h') →
  resume_text ≠ "" ∧ jd_text ≠ ""
  ∧ clean_and_extract_words resume_text ≠ ∅ ∧ clean_and_extract_words jd_text ≠ ∅
  ∧ ∃ fields sd d groups,
      h !! ontology = Some (ObjOntology fields)
      ∧ dict_get fields "SignalDomains" = Some sd
      ∧ h !! sd = Some (ObjDomains d)
      ∧ soc_groups_of h fields = Some groups
      ∧ r = analyse (applyOverrides d business_term_mappings) groups
              resume_text jd_text (clean_and_extract_words resume_text)
              (clean_and_extract_words jd_text) soc_override
      ∧ h' = <[sd := ObjDomains (applyOverrides d business_term_mappings)]>
               (h ++ [ObjOntology fields]).
Proof.
  intros Hrun.
  assert (resume_text ≠ "" ∧ jd_text ≠ ""
          ∧ clean_and_extract_words resume_text ≠ ∅
          ∧ clean_and_extract_words jd_text ≠ ∅) as (Hr & Hj & Hrw & Hjw).
  { unfold run_enhanced_ontological_analysis in Hrun.
    destruct (bool_decide (resume_text = "")) eqn:Hr; [done|].
    destruct (bool_decide (jd_text = "")) eqn:Hj; [done|].
    destruct (nonempty (clean_and_extract_words resume_text)) eqn:Hrw; [|done].
    destruct (nonempty (clean_and_extract_words jd_text)) eqn:Hjw; [|done].
    apply bool_decide_eq_false in Hr, Hj. apply nonempty_true in Hrw, Hjw. done. }
  do 4 (split; [done|]).
  destruct (h !! ontology) as [[fields| |]|] eqn:Ho.
  2-4: unfold run_enhanced_ontological_analysis in Hrun;
       rewrite !bool_decide_eq_false_2 in Hrun by done;
       apply nonempty_true in Hrw, Hjw; rewrite Hrw, Hjw in Hrun;
       cbn [negb] in Hrun; unfold bind at 1 in Hrun;
       rewrite enhance_ontology_eq, Ho in Hrun; done.
  destruct (dict_get fields "SignalDomains") as [sd|] eqn:Hsd.
  2: { unfold run_enhanced_ontological_analysis in Hrun.
       rewrite !bool_decide_eq_false_2 in Hrun by done.
       apply nonempty_true in Hrw, Hjw. rewrite Hrw, Hjw in Hrun.
       cbn [negb] in Hrun. unfold bind at 1 in Hrun.
       rewrite enhance_ontology_eq, Ho in Hrun. cbv zeta in Hrun.
       by rewrite Hsd in Hrun. }
  destruct (h !! sd) as [[| d |]|] eqn:Hd.
  1,3,4: unfold run_enhanced_ontological_analysis in Hrun;
       rewrite !bool_decide_eq_false_2 in Hrun by done;
       apply nonempty_true in Hrw, Hjw; rewrite Hrw, Hjw in Hrun;
       cbn [negb] in Hrun; unfold bind at 1 in Hrun;
       rewrite enhance_ontology_eq, Ho in Hrun; cbv zeta in Hrun;
       rewrite Hsd, Hd in Hrun; done.
  destruct (run_on_ontology resume_text jd_text ontology soc_override h fields sd d
              Hr Hj Hrw Hjw Ho Hsd Hd) as [_ Heq].
  rewrite Heq in Hrun.
  destruct (soc_groups_of h fields) as [groups|] eqn:Hg; [|done].
  injection Hrun as <- <-. by exists fields, sd, d, groups.
Qed.



(** X16: an analysis repeated on the store that the first one left, with
    the same texts and override, returns the same result: the business
    terms written by the first are those the second writes. *)
Theorem second_analysis_same_result {order : SetOrder}
    (resume_text jd_text : string) (ontology : loc) (soc_override : option string)
    (h h' : heap) (r : AnalysisResult) :
  run_enhanced_ontological_analysis resume_text jd_text ontology soc_override h
  = (Ok (Analysed r), h') →
  ∃ h'',
    run_enhanced_ontological_analysis resume_text jd_text ontology soc_override h'
    = (Ok (Analysed r), h'').
Proof.
  intros Hrun.
  destruct (run_analysed_inv _ _ _ _ _ _ _ Hrun)
    as (Hr & Hj & Hrw & Hjw & fields & sd & d & groups & Ho & Hsd & Hd & Hg & -> & ->).
  set (d' := applyOverrides d business_term_mappings).
  set (h' := <[sd := ObjDomains d']> (h ++ [ObjOntology fields])).
  destruct (run_on_ontology resume_text jd_text ontology soc_override h fields sd d
              Hr Hj Hrw Hjw Ho Hsd Hd) as [Hg' _]. fold d' h' in Hg'.
  assert (sd < length h)%nat as Hsdlt by (by eapply lookup_lt_Some).
  assert (ontology < length h)%nat as Holt by (by eapply lookup_lt_Some).
  assert (ontology ≠ sd) as Hne by (intros ->; congruence).
  assert (h' !! ontology = Some (ObjOntology fields)) as Ho'.
  { subst h'. rewrite list_lookup_insert_ne by done. by rewrite lookup_app_l. }
  assert (h' !! sd = Some (ObjDomains d')) as Hd'.
  { subst h'. apply list_lookup_insert_eq. rewrite length_app. lia. }
  destruct (run_on_ontology resume_text jd_text ontology soc_override h' fields sd d'
              Hr Hj Hrw Hjw Ho' Hsd Hd') as [_ ->].
  rewrite Hg', Hg. subst d'.
  rewrite applyOverrides_idem by apply business_term_mappings_NoDup.
  by eexists.
Qed.

Lemma second_analysis_same_result_witness :
  ∃ h' h'',
    run_enhanced_ontological_analysis (order := elements_order)
      sample_resume sample_jd 0 None (ontology_heap sample_domains sample_groups)
    = (Ok (Analysed enhanced_result), h')
    ∧ run_enhanced_ontological_analysis (order := elements_order)
        sample_resume sample_jd 0 None h'
      = (Ok (Analysed enhanced_result), h'').
Proof.
  assert (run_enhanced_ontological_analysis (order := elements_order)
      sample_resume sample_jd 0 None (ontology_heap sample_domains sample_groups)
    = (Ok (Analysed enhanced_result),
       <[1%nat := ObjDomains (applyOverrides sample_domains business_term_mappings)]>
         (ontology_heap sample_domains sample_groups
          ++ [ObjOntology [("SignalDomains", 1%nat); ("SOC_Groups", 2%nat)]])))
    as Hrun by (by vm_compute).
  destruct (second_analysis_same_result (order := elements_order) _ _ _ _ _ _ _ Hrun)
    as [h'' Hrun2].
  eexists _, h''. split; [exact Hrun | exact Hrun2].
Defined.

(** ** The history of analyses *)

(** X17: after an analysis is saved, the history ends with its entry, before
    which come the last entries of the earlier history, 9 at most and in
    their order; so the history never holds more than 10 entries. *)
Theorem history_keeps_last_ten (now : nat) (results : AnalysisResult)
    (analysis_history : option (list HistoryEntry)) :
  let old := default [] analysis_history in
  let new := save_analysis_to_history now results analysis_history in
  length new = (S (length old) `min` 10)%nat
  ∧ ∃ kept, new = kept ++ [history_entry now results]
            ∧ kept `suffix_of` old
            ∧ length kept = (length old `min` 9)%nat.
Proof.
  intros old new. subst new. unfold save_analysis_to_history. fold old.
  rewrite length_app, Nat.add_1_r.
  destruct (10 <? S (length old))%nat eqn:Hlen.
  - apply Nat.ltb_lt in Hlen. unfold last_n.
    rewrite length_app, Nat.add_1_r.
    rewrite drop_app_le by lia.
    split.
    + rewrite length_app, length_drop. simpl. lia.
    + exists (drop (S (length old) - 10) old).
      split; [done|]. split; [apply suffix_drop|]. rewrite length_drop. lia.
  - apply Nat.ltb_ge in Hlen. split.
    + rewrite length_app. simpl. lia.
    + exists old. split; [done|]. split; [done|]. lia.
Qed.

Lemma sum_list_filter_le {A : Type} (f : A → nat) (P : A → Prop)
    `{∀ x, Decision (P x)} (l : list A) :
  (sum_list (map f (filter P l)) ≤ sum_list (map f l))%nat.
Proof.
  induction l as [|x l IH]; [done|].
  rewrite filter_cons. destruct (decide (P x)); simpl; lia.
Qed.

Lemma sum_list_bound {A : Type} (f : A → nat) (n : nat) (l : list A) :
  Forall (λ x, f x ≤ n)%nat l → (sum_list (map f l) ≤ n * length l)%nat.
Proof. induction 1; simpl; lia. Qed.

Lemma score_domains_gaps_short {order : SetOrder} (m : dict (gset string))
    (jd_words : gset string) (resume_text_lower : string) :
  Forall (λ gaps, length gaps ≤ 20)%nat
    (dict_values (sc_gaps (score_domains m jd_words resume_text_lower))).
Proof.
  unfold score_domains.
  assert (∀ st, Forall (λ gaps, length gaps ≤ 20)%nat (dict_values (sc_gaps st)) →
    Forall (λ gaps, length gaps ≤ 20)%nat
      (dict_values (sc_gaps (foldl (score_domain jd_words resume_text_lower) st m))))
    as Hgen.
  { induction m as [|[k kw] m IH]; intros st Hst; [done|].
    cbn [foldl]. apply IH. unfold score_domain.
    destruct (nonempty (kw ∩ jd_words)); [|done]. cbn [sc_gaps].
    destruct (nonempty (gaps_of _ _)); [|done].
    apply Forall_dict_set; [apply rank_gaps_length | done]. }
  apply Hgen. constructor.
Qed.

(** X18: in the entry saved for an analysis, the gaps counted for the
    critical domains are at most the gaps counted in all, and these are at
    most 20 for each domain with a gap list. *)
Theorem history_gap_counts {order : SetOrder} (now : nat)
    (domains : dict (list string)) (soc_groups : dict group_data)
    (resume_text jd_text : string) (resume_words jd_words : gset string)
    (soc_override : option string) :
  let r := analyse domains soc_groups resume_text jd_text resume_words jd_words
             soc_override in
  let entry := history_entry now r in
  (entry_critical_gaps entry ≤ entry_total_gaps entry)%nat
  ∧ (entry_total_gaps entry ≤ 20 * length (domain_gaps r))%nat.
Proof.
  intros r entry. subst entry. cbn [history_entry entry_critical_gaps entry_total_gaps].
  split.
  - unfold critical_gaps, total_gaps. apply sum_list_filter_le.
  - unfold total_gaps. apply sum_list_bound.
    pose proof (score_domains_gaps_short (build_domain_keyword_map domains)
                  jd_words (Str.lower resume_text)) as Hshort.
    unfold dict_values in Hshort. apply Forall_fmap in Hshort.
    eapply Forall_impl; [exact Hshort|]. by intros [d gaps].
Qed.

(** ** The optimisation prompt *)



(** ** The missing keywords of the report *)

Lemma report_gaps_of_domain_spec (count : nat) (cells gaps : list string) :
  let st := report_gaps_of_domain count cells gaps in
  ∃ added,
    rs_cells st = cells ++ added
    ∧ rs_count st = (count + length added)%nat
    ∧ (length added ≤ 3)%nat
    ∧ ∀ cell, cell ∈ added →
              ∃ gap, gap ∈ take 3 gaps ∧ ascii_only gap ≠ ""
                     ∧ cell = "  " +:+ ascii_only gap.
Proof.
  unfold report_gaps_of_domain.
  assert (∀ (l : list string) (st0 : report_state),
    ∃ added,
      rs_cells (foldl (λ st gap,
           if rs_broken st then st
           else
             let clean_gap := ascii_only gap in
             if bool_decide (clean_gap = "") then st
             else
               let count := S (rs_count st) in
               {| rs_count := count;
                  rs_cells := rs_cells st ++ ["  " +:+ clean_gap];
                  rs_broken := (10 <=? count)%nat |}) st0 l)
      = rs_cells st0 ++ added
      ∧ rs_count (foldl (λ st gap,
           if rs_broken st then st
           else
             let clean_gap := ascii_only gap in
             if bool_decide (clean_gap = "") then st
             else
               let count := S (rs_count st) in
               {| rs_count := count;
                  rs_cells := rs_cells st ++ ["  " +:+ clean_gap];
                  rs_broken := (10 <=? count)%nat |}) st0 l)
        = (rs_count st0 + length added)%nat
      ∧ (length added ≤ length l)%nat
      ∧ ∀ cell, cell ∈ added →
                ∃ gap, gap ∈ l ∧ ascii_only gap ≠ ""
                       ∧ cell = "  " +:+ ascii_only gap) as Hgen.
  { induction l as [|gap l IH]; intros st0; cbn [foldl].
    - exists []. rewrite app_nil_r. repeat split; [simpl; lia..|].
      by intros ? ?%elem_of_nil.
    - destruct (rs_broken st0) eqn:Hb.
      { destruct (IH st0) as (added & Hc & Hn & Hl & Ha).
        exists added. split; [done|]. split; [done|]. split; [simpl; lia|].
        intros cell Hin. destruct (Ha cell Hin) as (g & Hg & Hne & ->).
        exists g. split; [by apply list_elem_of_further | done]. }
      cbv zeta. destruct (bool_decide (ascii_only gap = "")) eqn:Hclean.
      { destruct (IH st0) as (added & Hc & Hn & Hl & Ha).
        exists added. split; [done|]. split; [done|]. split; [simpl; lia|].
        intros cell Hin. destruct (Ha cell Hin) as (g & Hg & Hne & ->).
        exists g. split; [by apply list_elem_of_further | done]. }
      apply bool_decide_eq_false in Hclean.
      destruct (IH {| rs_count := S (rs_count st0);
                      rs_cells := rs_cells st0 ++ ["  " +:+ ascii_only gap];
                      rs_broken := (10 <=? S (rs_count st0))%nat |})
        as (added & Hc & Hn & Hl & Ha).
      cbn [rs_cells rs_count] in Hc, Hn.
      exists (("  " +:+ ascii_only gap) :: added).
      split; [by rewrite Hc, <- app_assoc|].
      split; [rewrite Hn; simpl; lia|]. split; [simpl; lia|].
      intros cell [->|Hin]%elem_of_cons.
      + exists gap. split; [apply list_elem_of_here | done].
      + destruct (Ha cell Hin) as (g & Hg & Hne & ->).
        exists g. split; [by apply list_elem_of_further | done]. }
  cbv zeta.
  destruct (Hgen (take 3 gaps)
              {| rs_count := count; rs_cells := cells; rs_broken := false |})
    as (added & Hc & Hn & Hl & Ha).
  exists added. split; [done|]. split; [done|]. split; [|done].
  rewrite length_take in Hl. lia.
Qed.

(** X20: the report lists at most 7 missing keywords, each one among the
    first three gaps of a domain, with its characters above 127 left out:
    the loop is left once 5 are written, and a domain adds at most 3. *)
Theorem report_lists_at_most_7 (domain_gaps : dict (list string)) :
  (length (report_gap_cells domain_gaps) ≤ 7)%nat
  ∧ ∀ cell, cell ∈ report_gap_cells domain_gaps →
            ∃ d gaps gap, (d, gaps) ∈ domain_gaps ∧ gap ∈ take 3 gaps
                          ∧ ascii_only gap ≠ ""
                          ∧ cell = "  " +:+ ascii_only gap.
Proof.
  unfold report_gap_cells.
  set (step := λ (st : report_state) '(domain, gaps), _).
  assert (∀ (l : dict (list string)) (st0 : report_state),
    let st := foldl step st0 l in
    rs_count st0 = length (rs_cells st0) → (rs_count st0 ≤ 7)%nat →
    rs_count st = length (rs_cells st) ∧ (rs_count st ≤ 7)%nat
    ∧ ∀ cell, cell ∈ rs_cells st →
              cell ∈ rs_cells st0
              ∨ ∃ d gaps gap, (d, gaps) ∈ l ∧ gap ∈ take 3 gaps
                              ∧ ascii_only gap ≠ ""
                              ∧ cell = "  " +:+ ascii_only gap) as Hgen.
  { induction l as [|[d gaps] l IH]; intros st0; cbn [foldl]; [by auto|].
    intros Hc H7.
    assert (rs_count (step st0 (d, gaps)) = length (rs_cells (step st0 (d, gaps)))
            ∧ (rs_count (step st0 (d, gaps)) ≤ 7)%nat
            ∧ ∀ cell, cell ∈ rs_cells (step st0 (d, gaps)) →
                      cell ∈ rs_cells st0
                      ∨ ∃ gap, gap ∈ take 3 gaps ∧ ascii_only gap ≠ ""
                               ∧ cell = "  " +:+ ascii_only gap)
      as (Hc1 & H71 & Hcells1).
    { subst step. cbv beta iota.
      destruct (rs_broken st0); [by auto|].
      destruct (5 <=? rs_count st0)%nat eqn:H5; [by auto|].
      apply Nat.leb_gt in H5.
      destruct (report_gaps_of_domain_spec (rs_count st0) (rs_cells st0) gaps)
        as (added & Hcells & Hn & Hl & Ha).
      cbn [rs_count rs_cells]. rewrite Hcells, Hn, length_app.
      split; [lia|]. split; [lia|].
      intros cell [?|Hin]%elem_of_app; [auto|]. right. by apply Ha. }
    destruct (IH (step st0 (d, gaps)) Hc1 H71) as (Hc2 & H72 & Hcells2).
    split; [done|]. split; [done|].
    intros cell Hin. destruct (Hcells2 cell Hin) as [Hin1|(d' & gaps' & gap & Hl & ?)].
    - destruct (Hcells1 cell Hin1) as [?|(gap & ? & ? & ?)]; [auto|].
      right. exists d, gaps, gap. split; [apply list_elem_of_here | done].
    - right. exists d', gaps', gap. split; [by apply list_elem_of_further | done]. }
  destruct (Hgen domain_gaps {| rs_count := 0; rs_cells := []; rs_broken := false |}
              eq_refl ltac:(simpl; lia)) as (Hc & H7 & Hcells).
  split; [by rewrite <- Hc|].
  intros cell Hin. destruct (Hcells cell Hin) as [[]%elem_of_nil|?]. done.
Qed.

(** ** Edge cases of the result *)

Lemma filter_critical_nil (l : list (string * Q)) :
  filter (λ '(domain, _), domain ∈ @nil string) l = [].
Proof.
  induction l as [|[k v] l IH]; [done|].
  rewrite filter_cons. rewrite decide_False by apply not_elem_of_nil. done.
Qed.

(** X21: where the predicted group is not a group of the ontology (a fixed
    category that the ontology does not list, or no group at all), the
    result has no critical domain and no suggested title, and its trust
    score is 0. *)
Theorem unknown_group_no_critical_domains {order : SetOrder}
    (domains : dict (list string)) (soc_groups : dict group_data)
    (resume_text jd_text : string) (resume_words jd_words : gset string)
    (soc_override : option string) :
  let r := analyse domains soc_groups resume_text jd_text resume_words jd_words
             soc_override in
  (∀ g, predicted_soc_group r = Some g → g ∉ dict_keys soc_groups) →
  critical_domains r = [] ∧ suggested_titles r = []
  ∧ (calculate_trust_visibility_scores r).1 = 0%Q.
Proof.
  intros r Hunknown.
  assert (critical_domains r = [] ∧ suggested_titles r = []) as [Hc Ht].
  { subst r. unfold analyse in *. cbn [predicted_soc_group critical_domains
      suggested_titles] in *.
    destruct (best_soc_group _) as [g|]; [|done].
    specialize (Hunknown g eq_refl). apply dict_get_None in Hunknown.
    by rewrite Hunknown. }
  split; [done|]. split; [done|].
  unfold calculate_trust_visibility_scores. cbn [fst]. rewrite Hc.
  by rewrite filter_critical_nil.
Qed.

Lemma unknown_group_no_critical_domains_witness :
  let r := analyse (order := elements_order) sample_domains [] cooking_resume
             it_management_jd (clean_and_extract_words cooking_resume)
             (clean_and_extract_words it_management_jd) None in
  (∀ g, predicted_soc_group r = Some g → g ∉ dict_keys (@nil (string * group_data)))
  ∧ (calculate_trust_visibility_scores r).1 = 0%Q.
Proof.
  intros r.
  assert (∀ g, predicted_soc_group r = Some g
               → g ∉ dict_keys (@nil (string * group_data))) as Hunknown.
  { intros g _. apply not_elem_of_nil. }
  split; [exact Hunknown|].
  exact (proj2 (proj2 (unknown_group_no_critical_domains (order := elements_order)
                         sample_domains [] cooking_resume it_management_jd
                         (clean_and_extract_words cooking_resume)
                         (clean_and_extract_words it_management_jd) None Hunknown))).
Defined.

Lemma score_domains_no_overlap {order : SetOrder} (m : dict (gset string))
    (jd_words : gset string) (resume_text_lower : string) (st : scoring) :
  (∀ k kw, (k, kw) ∈ m → kw ∩ jd_words = ∅) →
  foldl (score_domain jd_words resume_text_lower) st m = st.
Proof.
  induction m as [|[k kw] m IH]; intros Hm; [done|]. cbn [foldl].
  assert (score_domain jd_words resume_text_lower st (k, kw) = st) as ->.
  { unfold score_domain.
    rewrite (Hm k kw) by apply list_elem_of_here.
    assert (nonempty (∅ : gset string) = false) as -> by (by apply nonempty_false).
    done. }
  apply IH. intros k' kw' Hin. apply (Hm k' kw'). by apply list_elem_of_further.
Qed.

Lemma set_iter_empty {order : SetOrder} : set_iter ∅ = [].
Proof.
  apply Permutation_nil_r. rewrite set_iter_perm. by rewrite elements_empty.
Qed.

(** X22: where no keyword of any domain is in the job description, no domain
    is scored and no gap is listed; the keyword counts, the overall score,
    the trust score and the visibility score are all 0. *)
Theorem no_jd_keyword_no_scores {order : SetOrder}
    (domains : dict (list string)) (soc_groups : dict group_data)
    (resume_text jd_text : string) (resume_words jd_words : gset string)
    (soc_override : option string) :
  let r := analyse domains soc_groups resume_text jd_text resume_words jd_words
             soc_override in
  (∀ d, domain_jd_keywords_of (build_domain_keyword_map domains) jd_words d = ∅) →
  domain_scores r = [] ∧ domain_gaps r = []
  ∧ total_jd_keywords r = 0%nat ∧ matched_keywords r = 0%nat
  ∧ overall_score r = 0%Q
  ∧ calculate_trust_visibility_scores r = (0%Q, 0%Q).
Proof.
  intros r Hnone.
  assert (score_domains (build_domain_keyword_map domains) jd_words
            (Str.lower resume_text)
          = {| sc_scores := []; sc_gaps := []; sc_all_jd_keywords := ∅ |}) as Hsc.
  { unfold score_domains. apply score_domains_no_overlap.
    intros k kw Hin. specialize (Hnone k). unfold domain_jd_keywords_of in Hnone.
    rewrite (dict_get_elem_NoDup _ k kw) in Hnone; [done| |done].
    apply build_domain_keyword_map_NoDup. }
  assert (domain_scores r = [] ∧ domain_gaps r = []) as [Hs Hg].
  { subst r. unfold analyse. cbn [domain_scores domain_gaps]. by rewrite Hsc. }
  split; [done|]. split; [done|].
  split; [subst r; unfold analyse; cbn [total_jd_keywords]; by rewrite Hsc|].
  split.
  { subst r. unfold analyse. cbn [matched_keywords]. rewrite Hsc.
    cbn [sc_all_jd_keywords]. by rewrite set_iter_empty. }
  split.
  { subst r. unfold analyse. cbn [overall_score]. rewrite Hsc.
    cbn [sc_all_jd_keywords]. unfold compute_overall_score.
    assert (nonempty (∅ : gset string) = false) as -> by (by apply nonempty_false).
    done. }
  unfold calculate_trust_visibility_scores. by rewrite Hs, Hg.
Qed.

Lemma no_jd_keyword_no_scores_witness :
  let r := analyse (order := elements_order) sample_domains sample_groups
             cooking_resume "Hello world" (clean_and_extract_words cooking_resume)
             (clean_and_extract_words "Hello world") None in
  (∀ d, domain_jd_keywords_of (build_domain_keyword_map sample_domains)
          (clean_and_extract_words "Hello world") d = ∅)
  ∧ domain_scores r = [].
Proof.
  intros r.
  assert (∀ d, domain_jd_keywords_of (build_domain_keyword_map sample_domains)
                 (clean_and_extract_words "Hello world") d = ∅) as Hnone.
  { intros d. unfold domain_jd_keywords_of.
    change (build_domain_keyword_map sample_domains)
      with [("Leadership", domain_keywords_of ["team lead"; "leadership"])].
    cbn [dict_get]. destruct (decide (d = "Leadership")); [|done].
    cbn [from_option]. apply (bool_decide_unpack _). by vm_compute. }
  split; [exact Hnone|].
  exact (proj1 (no_jd_keyword_no_scores (order := elements_order) sample_domains
                  sample_groups cooking_resume "Hello world"
                  (clean_and_extract_words cooking_resume)
                  (clean_and_extract_words "Hello world") None Hnone)).
Defined.

(** ** Uploaded files *)

Lemma validate_file_turned_down (file : option UploadedFile) :
  (validate_file file).1 = false ↔ turned_down file.
Proof.
  unfold validate_file, turned_down. destruct file as [f|]; [|done].
  change (MAX_FILE_SIZE_MB * 1024 * 1024)%N with 10485760%N.
  destruct (10485760 <? file_size f)%N eqn:Hsize.
  - apply N.ltb_lt in Hsize. split; auto.
  - apply N.ltb_ge in Hsize.
    destruct (bool_decide (file_type f ∈ ["application/pdf"; "text/plain"])) eqn:Ht;
      cbn [negb fst].
    + apply bool_decide_eq_true in Ht. split; [done|].
      intros [?|[H1 H2]]; [lia|].
      apply elem_of_cons in Ht as [?|Ht]; [done|].
      apply list_elem_of_singleton in Ht. done.
    + apply bool_decide_eq_false in Ht. split; [|done]. intros _. right.
      split; intros Heq; apply Ht; rewrite Heq.
      * apply list_elem_of_here.
      * apply list_elem_of_further, list_elem_of_here.
Qed.

(** X23: when the resume file or the job-description file is turned down by
    the validation (no file, more than 10 485 760 bytes, or a type other
    than PDF and plain text), the analysis is declined and the ontology is
    not touched, whatever the libraries would read in the files. *)
Theorem turned_down_file_declined {order : SetOrder}
    (PdfReader : list ascii → string + list page_result)
    (decode : string → list ascii → option string)
    (resume_file jd_file : option UploadedFile) (ontology : loc)
    (soc_override : option string) (h : heap) :
  turned_down resume_file ∨ turned_down jd_file →
  ∃ message,
    run_enhanced_ontological_analysis_on_files PdfReader decode resume_file jd_file
      ontology soc_override h
    = (Ok (Declined message), h).
Proof.
  assert (∀ file, turned_down file →
                  (extract_text_from_file PdfReader decode file).1 = "") as Hempty.
  { intros file Hdown%validate_file_turned_down. unfold extract_text_from_file.
    destruct (validate_file file) as [valid messages]. cbn [fst] in Hdown.
    subst valid. by destruct file. }
  intros Hdown. unfold run_enhanced_ontological_analysis_on_files.
  cbv zeta. unfold run_enhanced_ontological_analysis.
  destruct (bool_decide ((extract_text_from_file PdfReader decode resume_file).1 = ""))
    eqn:Hr; [by eexists|].
  apply bool_decide_eq_false in Hr.
  destruct Hdown as [Hdown|Hdown]; [by destruct (Hr (Hempty _ Hdown))|].
  rewrite (Hempty _ Hdown). by eexists.
Qed.

Lemma turned_down_file_declined_witness :
  let big := {| file_name := "cv.pdf"; file_size := 10485761;
                file_type := "application/pdf"; file_value := [] |} in
  (turned_down (Some big) ∨ turned_down None)
  ∧ ∃ message,
      run_enhanced_ontological_analysis_on_files (order := elements_order)
        (λ _, inr []) (λ _ _, None) (Some big) None 0 None
        (ontology_heap sample_domains sample_groups)
      = (Ok (Declined message), ontology_heap sample_domains sample_groups).
Proof.
  intros big.
  assert (turned_down (Some big) ∨ turned_down None) as Hdown.
  { left. left. reflexivity. }
  split; [exact Hdown|].
  exact (turned_down_file_declined (order := elements_order) (λ _, inr [])
           (λ _ _, None) (Some big) None 0 None
           (ontology_heap sample_domains sample_groups) Hdown).
Defined.

(** X24: a file that the application accepts, the enhanced file processor
    accepts too; the converse fails for files between 10 and 50 MB and for
    DOCX files. *)
Theorem enhanced_accepts_more (file : option UploadedFile) :
  (validate_file file).1 = true → (enhanced_validate_file file).1 = true.
Proof.
  unfold validate_file, enhanced_validate_file. destruct file as [f|]; [|done].
  change (MAX_FILE_SIZE_MB * 1024 * 1024)%N with 10485760%N.
  change enhanced_max_file_size with 52428800%N.
  destruct (10485760 <? file_size f)%N eqn:Hsize; [done|].
  apply N.ltb_ge in Hsize.
  assert ((52428800 <? file_size f)%N = false) as -> by (apply N.ltb_ge; lia).
  destruct (bool_decide (file_type f ∈ ["application/pdf"; "text/plain"])) eqn:Ht;
    [|done].
  intros _. apply bool_decide_eq_true in Ht.
  rewrite bool_decide_eq_true_2; [done|].
  apply elem_of_cons in Ht as [->|Ht]; [apply list_elem_of_here|].
  apply list_elem_of_singleton in Ht as ->.
  apply list_elem_of_further, list_elem_of_here.
Qed.

Lemma enhanced_accepts_more_witness :
  let f := Some {| file_name := "jd.txt"; file_size := 2048;
                   file_type := "text/plain"; file_value := [] |} in
  (validate_file f).1 = true ∧ (enhanced_validate_file f).1 = true.
Proof.
  intros f. split; [reflexivity|].
  exact (enhanced_accepts_more f eq_refl).
Defined.

(** ** The gap matrix of the heat map *)


